(** * gocate: the resizable split-pane container and its drag controller

    A shallow embedding of the ResizableContainer and of the DragHandler
    ([drag_handler.go]) of the bubblezone resizable viewport, together with
    the properties stated for them; and, around them, of the container's
    [View], of the list pane and the header of the demo, and of the model
    of the program ([main.go]) that holds them.

    Go's [int] is taken as the 64-bit two's-complement integer of a 64-bit
    platform.  Go's [float64] is not fixed once: the container code is written
    over an interface [Float64] of the operations it uses, and the interface
    has two instances,
      - [Binary64.ops], IEEE 754 binary64 on Rocq's primitive floats: the
        arithmetic the program runs;
      - [Exact.ops], the rationals: the same code with rounding left out. *)

From Stdlib Require Import ZArith List String Ascii Bool Lia.
From Stdlib Require Import DecimalString DecimalNat.
From Stdlib Require Import QArith.
From Stdlib Require Import Floats Uint63.
Import ListNotations.

Local Open Scope Z_scope.

(* ===================================================================== *)
(** ** Go integers *)

Module GoInt.

Definition min_int : Z := - 2 ^ 63.
Definition max_int : Z := 2 ^ 63 - 1.

(** Two's-complement wrap-around of an [int] result. *)
Definition wrap (z : Z) : Z := (z + 2 ^ 63) mod 2 ^ 64 - 2 ^ 63.

Definition in_range (z : Z) : bool := (min_int <=? z) && (z <=? max_int).

Definition sub (a b : Z) : Z := wrap (a - b).
Definition mul (a b : Z) : Z := wrap (a * b).
Definition add (a b : Z) : Z := wrap (a + b).

(** [strconv.Itoa] on a loop index (never negative here). *)
Definition Itoa (i : nat) : string := NilEmpty.string_of_uint (Nat.to_uint i).

End GoInt.

(* ===================================================================== *)
(** ** A small error monad: [None] is a Go run-time panic *)

Definition bind {A B : Type} (c : option A) (k : A -> option B) : option B :=
  match c with
  | Some a => k a
  | None => None
  end.

Notation "x <- c ;; k" := (bind c (fun x => k))
  (at level 61, c at next level, right associativity).

(** [s[i]] on a slice: a panic when the index is out of range. *)
Definition index {A : Type} (s : list A) (i : Z) : option A :=
  if i <? 0 then None else nth_error s (Z.to_nat i).

(** [s[i] = v] on a slice: a panic when the index is out of range. *)
Fixpoint store_nat {A : Type} (s : list A) (i : nat) (v : A) : option (list A) :=
  match s, i with
  | [], _ => None
  | _ :: s', O => Some (v :: s')
  | x :: s', S i' => s'' <- store_nat s' i' v ;; Some (x :: s'')
  end.

Definition store {A : Type} (s : list A) (i : Z) (v : A) : option (list A) :=
  if i <? 0 then None else store_nat s (Z.to_nat i) v.

(* ===================================================================== *)
(** ** The float64 operations the container uses *)

Class Float64 : Type := {
  f64 : Type;
  fadd : f64 -> f64 -> f64;
  fsub : f64 -> f64 -> f64;
  fmul : f64 -> f64 -> f64;
  fdiv : f64 -> f64 -> f64;
  (** [flt a b] is Go's [a < b]; [a > b] is [flt b a]. *)
  flt : f64 -> f64 -> bool;
  (** [float64(i)] for an [int] i. *)
  of_int : Z -> f64;
  (** [int(x)]: truncation toward zero. *)
  to_int : f64 -> Z;
  (** The literal [0.0]. *)
  fzero : f64;
  (** The literal [0.70]. *)
  lit_0_70 : f64
}.

(** IEEE 754 binary64. *)
Module Binary64.

Definition of_Z (z : Z) : float :=
  if z =? GoInt.min_int then (-0x1p63)%float
  else if z <? 0 then PrimFloat.opp (PrimFloat.of_uint63 (Uint63.of_Z (- z)))
  else PrimFloat.of_uint63 (Uint63.of_Z z).

(** Truncation toward zero.  Go leaves the conversion of NaN, of the
    infinities and of values outside [int] to the implementation; amd64
    yields the least [int], which is what is written here. *)
Definition trunc (x : float) : Z :=
  match Prim2SF x with
  | S754_zero _ => 0
  | S754_finite s m e =>
      let mag := if 0 <=? e then Z.shiftl (Zpos m) e else Z.shiftr (Zpos m) (- e) in
      let z := if s then - mag else mag in
      if GoInt.in_range z then z else GoInt.min_int
  | _ => GoInt.min_int
  end.

#[export] Instance ops : Float64 := {|
  f64 := float;
  fadd := PrimFloat.add;
  fsub := PrimFloat.sub;
  fmul := PrimFloat.mul;
  fdiv := PrimFloat.div;
  flt := PrimFloat.ltb;
  of_int := of_Z;
  to_int := trunc;
  fzero := 0%float;
  lit_0_70 := 0x1.6666666666666p-1%float
|}.

End Binary64.

(** The rationals: float64 with rounding left out. *)
Module Exact.

Definition ltb (a b : Q) : bool := negb (Qle_bool b a).

Definition trunc (x : Q) : Z :=
  let z := Z.quot (Qnum x) (Zpos (Qden x)) in
  if GoInt.in_range z then z else GoInt.min_int.

#[export] Instance ops : Float64 := {|
  f64 := Q;
  fadd := Qplus;
  fsub := Qminus;
  fmul := Qmult;
  fdiv := Qdiv;
  flt := ltb;
  of_int := inject_Z;
  to_int := trunc;
  fzero := 0%Q;
  lit_0_70 := (7 # 10)%Q
|}.

End Exact.

(* ===================================================================== *)
(** ** bubbletea messages *)

Inductive MouseAction : Type :=
| MouseActionPress
| MouseActionRelease
| MouseActionMotion.

Inductive MouseButton : Type :=
| MouseButtonNone
| MouseButtonLeft
| MouseButtonMiddle
| MouseButtonRight
| MouseButtonWheelUp
| MouseButtonWheelDown
| MouseButtonWheelLeft
| MouseButtonWheelRight
| MouseButtonBackward
| MouseButtonForward.

Record MouseMsg : Type := {
  X : Z;
  Y : Z;
  Action : MouseAction;
  Button : MouseButton
}.

(** [tea.Msg]: the two messages the container interprets, and any other
    message, which it only passes on. *)
Inductive Msg : Type :=
| WindowSizeMsg (Width Height : Z)
| Mouse (m : MouseMsg)
| OtherMsg (tag : string).

Definition is_left (b : MouseButton) : bool :=
  match b with MouseButtonLeft => true | _ => false end.

(* ===================================================================== *)
(** ** drag_handler.go *)

Inductive DragState : Type :=
| DragStateIdle
| DragStateDragging.

Record DragHandler : Type := {
  state : DragState;
  dragHandleID : string;
  lastX : Z
}.

Definition NewDragHandler : DragHandler :=
  {| state := DragStateIdle; dragHandleID := EmptyString; lastX := 0 |}.

Definition startDrag (handleID : string) (x : Z) : DragHandler :=
  {| state := DragStateDragging; dragHandleID := handleID; lastX := x |}.

Definition stopDrag : DragHandler :=
  {| state := DragStateIdle; dragHandleID := EmptyString; lastX := 0 |}.

Definition IsDragging (d : DragHandler) : bool :=
  match state d with DragStateDragging => true | DragStateIdle => false end.

Definition GetDragHandleID (d : DragHandler) : string := dragHandleID d.

(** The hit-test registry, [zone.Get(id).InBounds(msg)], as the controller
    sees it during one call. *)
Definition Zone : Type := string -> MouseMsg -> bool.

(** What [HandleMouseEvent] returns: handled, handle id, delta. *)
Definition Report : Type := (bool * string * Z)%type.

Definition unhandled : Report := (false, EmptyString, 0).

Definition HandleMouseEvent (zone : Zone) (d : DragHandler) (msg : MouseMsg)
    (handleIDs : list string) : DragHandler * Report :=
  match Action msg with
  | MouseActionPress =>
      if is_left (Button msg) then
        match find (fun handleID => zone handleID msg) handleIDs with
        | Some handleID => (startDrag handleID (X msg), (true, handleID, 0))
        | None => (d, unhandled)
        end
      else (d, unhandled)
  | MouseActionMotion =>
      match state d with
      | DragStateDragging =>
          let deltaX := GoInt.sub (X msg) (lastX d) in
          ({| state := state d; dragHandleID := dragHandleID d; lastX := X msg |},
           (true, dragHandleID d, deltaX))
      | DragStateIdle => (d, unhandled)
      end
  | MouseActionRelease =>
      match state d with
      | DragStateDragging =>
          if is_left (Button msg) then (stopDrag, (true, dragHandleID d, 0))
          else (d, unhandled)
      | DragStateIdle => (d, unhandled)
      end
  end.

(* ===================================================================== *)
(** ** The resizable container *)

Definition handleWidth : Z := 1.
Definition minWidthChars : Z := 35.

(** [tea.Model], as far as the container uses it on its children: a child
    takes a message and becomes the next child. *)
Class Model (Pane : Type) : Type := {
  update : Msg -> Pane -> Pane
}.

Section Container.

Context {F : Float64} {Pane : Type} {PaneModel : Model Pane}.

Definition maxProportion : f64 := lit_0_70.

Record ResizableContainer : Type := {
  id : string;
  width : Z;
  height : Z;
  children : list Pane;
  proportions : list f64;
  dragHandler : DragHandler
}.

Definition len {A : Type} (s : list A) : Z := Z.of_nat (List.length s).

(** [total := 0.0; for _, p := range ps { total += p }] *)
Definition sum (ps : list f64) : f64 := fold_left fadd ps fzero.

(** [zone.NewPrefix()] is the argument [prefix]; a length mismatch panics.
    The division by the total is not guarded. *)
Definition NewResizableContainer (prefix : string) (cs : list Pane)
    (initialProportions : list f64) : option ResizableContainer :=
  if negb (len cs =? len initialProportions) then None
  else
    let total := sum initialProportions in
    Some {| id := prefix;
            width := 0;
            height := 0;
            children := cs;
            proportions := map (fun p => fdiv p total) initialProportions;
            dragHandler := NewDragHandler |}.

Definition getHandleID (r : ResizableContainer) (handleIndex : nat) : string :=
  (id r ++ "handle_" ++ GoInt.Itoa handleIndex)%string.

(** The handle indices [0 .. len(children)-2] the loops run over. *)
Definition handleIndices (r : ResizableContainer) : list nat :=
  seq 0 (List.length (children r) - 1).

Definition getHandleIDs (r : ResizableContainer) : list string :=
  map (getHandleID r) (handleIndices r).

(** [r.width - ((len(r.children) - 1) * handleWidth)] *)
Definition availableWidth (r : ResizableContainer) : Z :=
  GoInt.sub (width r) (GoInt.mul (GoInt.sub (len (children r)) 1) handleWidth).

(** [int(float64(availableWidth) * r.proportions[i])] *)
Definition childWidth (aw : Z) (p : f64) : Z := to_int (fmul (of_int aw) p).

(** The loop [for i, child := range r.children] that sends each child its
    size: the children after it, and the messages sent, in order. *)
Fixpoint resizeLoop (aw h : Z) (ps : list f64) (i : Z) (cs : list Pane)
    : option (list Pane * list Msg) :=
  match cs with
  | [] => Some ([], [])
  | child :: rest =>
      p <- index ps i ;;
      let childMsg := WindowSizeMsg (childWidth aw p) h in
      done <- resizeLoop aw h ps (i + 1) rest ;;
      Some (update childMsg child :: fst done, childMsg :: snd done)
  end.

Definition with_children (r : ResizableContainer) (cs : list Pane) : ResizableContainer :=
  {| id := id r; width := width r; height := height r; children := cs;
     proportions := proportions r; dragHandler := dragHandler r |}.

Definition with_proportions (r : ResizableContainer) (ps : list f64) : ResizableContainer :=
  {| id := id r; width := width r; height := height r; children := children r;
     proportions := ps; dragHandler := dragHandler r |}.

Definition with_size (r : ResizableContainer) (w h : Z) : ResizableContainer :=
  {| id := id r; width := w; height := h; children := children r;
     proportions := proportions r; dragHandler := dragHandler r |}.

Definition with_dragHandler (r : ResizableContainer) (d : DragHandler) : ResizableContainer :=
  {| id := id r; width := width r; height := height r; children := children r;
     proportions := proportions r; dragHandler := d |}.

(** Available width, then the resize loop: the body shared by the
    [WindowSizeMsg] case and the drag case of [Update]. *)
Definition resizeChildren (r : ResizableContainer) : option (ResizableContainer * list Msg) :=
  done <- resizeLoop (availableWidth r) (height r) (proportions r) 0 (children r) ;;
  Some (with_children r (fst done), snd done).

(** [for i, child := range r.children { r.children[i], _ = child.Update(msg) }] *)
Definition propagate (r : ResizableContainer) (msg : Msg) : ResizableContainer * list Msg :=
  (with_children r (map (update msg) (children r)), map (fun _ => msg) (children r)).

Definition normalizeProportions (r : ResizableContainer) : ResizableContainer :=
  let total := sum (proportions r) in
  if flt fzero total then with_proportions r (map (fun p => fdiv p total) (proportions r))
  else r.

(** The search loop of [updateProportionsFromDrag]: the first index whose
    handle id is [handleID], or -1. *)
Definition findHandleIndex (r : ResizableContainer) (handleID : string) : Z :=
  match find (fun i => String.eqb (getHandleID r i) handleID) (handleIndices r) with
  | Some i => Z.of_nat i
  | None => -1
  end.

(** *** The four clamps, in the order of the source *)

(** The pair being redistributed: the proportions before the drag, and the
    bounds. *)
Record Pair : Type := {
  oldLeft : f64;
  oldRight : f64;
  minProportion : f64
}.

Definition clampLeftMin (c : Pair) (lr : f64 * f64) : f64 * f64 :=
  let '(newLeftProp, newRightProp) := lr in
  if flt newLeftProp (minProportion c) then
    let newLeftProp := minProportion c in
    (newLeftProp, fadd (oldRight c) (fsub (oldLeft c) newLeftProp))
  else lr.

Definition clampLeftMax (c : Pair) (lr : f64 * f64) : f64 * f64 :=
  let '(newLeftProp, newRightProp) := lr in
  if flt maxProportion newLeftProp then
    let newLeftProp := maxProportion in
    (newLeftProp, fadd (oldRight c) (fsub (oldLeft c) newLeftProp))
  else lr.

Definition clampRightMin (c : Pair) (lr : f64 * f64) : f64 * f64 :=
  let '(newLeftProp, newRightProp) := lr in
  if flt newRightProp (minProportion c) then
    let newRightProp := minProportion c in
    (fadd (oldLeft c) (fsub (oldRight c) newRightProp), newRightProp)
  else lr.

Definition clampRightMax (c : Pair) (lr : f64 * f64) : f64 * f64 :=
  let '(newLeftProp, newRightProp) := lr in
  if flt maxProportion newRightProp then
    let newRightProp := maxProportion in
    (fadd (oldLeft c) (fsub (oldRight c) newRightProp), newRightProp)
  else lr.

Definition tentative (c : Pair) (deltaPercent : f64) : f64 * f64 :=
  (fadd (oldLeft c) deltaPercent, fsub (oldRight c) deltaPercent).

Definition enforce (c : Pair) (lr : f64 * f64) : f64 * f64 :=
  clampRightMax c (clampRightMin c (clampLeftMax c (clampLeftMin c lr))).

Definition updateProportionsFromDrag (r : ResizableContainer) (handleID : string)
    (deltaX : Z) : option ResizableContainer :=
  let handleIndex := findHandleIndex r handleID in
  if handleIndex =? -1 then Some r
  else
    let availableWidth := availableWidth r in
    if availableWidth <=? 0 then Some r
    else
      let deltaPercent := fdiv (of_int deltaX) (of_int availableWidth) in
      let leftIndex := handleIndex in
      let rightIndex := GoInt.add handleIndex 1 in
      pl <- index (proportions r) leftIndex ;;
      pr <- index (proportions r) rightIndex ;;
      let c := {| oldLeft := pl; oldRight := pr;
                  minProportion := fdiv (of_int minWidthChars) (of_int availableWidth) |} in
      let '(newLeftProp, newRightProp) := enforce c (tentative c deltaPercent) in
      ps1 <- store (proportions r) leftIndex newLeftProp ;;
      ps2 <- store ps1 rightIndex newRightProp ;;
      Some (normalizeProportions (with_proportions r ps2)).

(** [Update]: the container after the message, and the messages its
    children were sent, in order. *)
Definition Update (zone : Zone) (r : ResizableContainer) (msg : Msg)
    : option (ResizableContainer * list Msg) :=
  match msg with
  | WindowSizeMsg w h => resizeChildren (with_size r w h)
  | Mouse m =>
      let '(d, (handled, handleID, deltaX)) :=
        HandleMouseEvent zone (dragHandler r) m (getHandleIDs r) in
      let r := with_dragHandler r d in
      if handled && negb (deltaX =? 0) then
        r <- updateProportionsFromDrag r handleID deltaX ;;
        resizeChildren r
      else if negb handled then Some (propagate r msg)
      else Some (r, [])
  | OtherMsg _ => Some (propagate r msg)
  end.

End Container.

Arguments ResizableContainer {F} Pane.

(* ===================================================================== *)
(** ** Running the drag controller over a stream of events *)

(** One event as the controller receives it: the registry of the moment,
    the handle ids passed by the caller, and the mouse message. *)
Definition Event : Type := (Zone * list string * MouseMsg)%type.

(** The controller fed the events in order: after each event, the
    controller's state and what it reported. *)
Fixpoint runEvents (d : DragHandler) (evs : list Event) : list (DragHandler * Report) :=
  match evs with
  | [] => []
  | (zone, handleIDs, msg) :: rest =>
      let out := HandleMouseEvent zone d msg handleIDs in
      out :: runEvents (fst out) rest
  end.

Definition handled (rep : Report) : bool := fst (fst rep).

Definition is_motion (ev : Event) : Prop := Action (snd ev) = MouseActionMotion.

(* ===================================================================== *)
(** ** Well-formed containers, and what a drag commits *)

Section Operations.

Context {F : Float64} {Pane : Type} {PaneModel : Model Pane}.

(** What the constructor establishes and every operation keeps: one
    proportion per child.  A Go slice has at most [max_int] elements. *)
Definition wf (r : ResizableContainer Pane) : Prop :=
  List.length (children r) = List.length (proportions r) /\
  len (children r) <= GoInt.max_int.

(** The children after each has taken the size computed from its
    proportion. *)
Definition resized (aw h : Z) (cs : list Pane) (ps : list f64) : list Pane :=
  map (fun cp => update (WindowSizeMsg (childWidth aw (snd cp)) h) (fst cp)) (combine cs ps).

(** The sizes sent, one per proportion. *)
Definition sizes (aw h : Z) (ps : list f64) : list Msg :=
  map (fun p => WindowSizeMsg (childWidth aw p) h) ps.

(** The vector after [r.proportions[h] = l; r.proportions[h+1] = v]. *)
Definition setPair (ps : list f64) (h : nat) (l v : f64) : list f64 :=
  firstn h ps ++ l :: v :: skipn (S (S h)) ps.

(** The pair record of a drag on the pair [(pl, pr)] at available width [aw]. *)
Definition pairOf (aw : Z) (pl pr : f64) : Pair :=
  {| oldLeft := pl; oldRight := pr;
     minProportion := fdiv (of_int minWidthChars) (of_int aw) |}.

(** The pair of values a drag by [deltaX] commits. *)
Definition redistribute (aw : Z) (pl pr : f64) (deltaX : Z) : f64 * f64 :=
  let c := pairOf aw pl pr in
  enforce c (tentative c (fdiv (of_int deltaX) (of_int aw))).




End Operations.

(** The [list] pane of the demo, as far as [Update] goes on a size message:
    it stores the size it is given; the item toggling of a mouse release
    does not touch the size. *)
Record ListPane : Type := {
  paneWidth : Z;
  paneHeight : Z
}.

#[export] Instance ListPaneModel : Model ListPane := {|
  update := fun msg m =>
    match msg with
    | WindowSizeMsg w h => {| paneWidth := w; paneHeight := h |}
    | _ => m
    end
|}.

Definition emptyPane : ListPane := {| paneWidth := 0; paneHeight := 8 |}.

(* ===================================================================== *)
(** ** A drag as the host delivers it *)

Section Scenario.

Context {F : Float64}.

Definition press (x : Z) : MouseMsg :=
  {| X := x; Y := 0; Action := MouseActionPress; Button := MouseButtonLeft |}.

Definition motion (x : Z) : MouseMsg :=
  {| X := x; Y := 0; Action := MouseActionMotion; Button := MouseButtonLeft |}.

(** The registry after a render that put the handle [handleID] in column
    [col], and nothing else that matters. *)
Definition handleAt (handleID : string) (col : Z) : Zone :=
  fun id msg => String.eqb id handleID && (X msg =? col).

(** A container of [list] panes built from [initial] and sized to [w] by
    [h]. *)
Definition sized (initial : list f64) (w h : Z) : option (ResizableContainer ListPane) :=
  r <- NewResizableContainer "z" (map (fun _ => emptyPane) initial) initial ;;
  out <- Update (fun _ _ => false) r (WindowSizeMsg w h) ;;
  Some (fst out).

(** On that container, a press on handle [handle] in column [col] and a move
    of the mouse by [deltaX] columns: the container afterwards, and the
    sizes the move made it send. *)
Definition dragScenario (initial : list f64) (w h : Z) (handle : nat) (col deltaX : Z)
    : option (ResizableContainer ListPane * list Msg) :=
  r <- sized initial w h ;;
  let zone := handleAt (getHandleID r handle) col in
  pressed <- Update zone r (Mouse (press col)) ;;
  Update zone (fst pressed) (Mouse (motion (col + deltaX))).

End Scenario.

(** Go's decimal literals, rounded to binary64 as the compiler does. *)
Module Lit.
Definition f0_5 : float := 0x1p-1%float.
Definition f0_25 : float := 0x1p-2%float.
Definition f0_3 : float := 0x1.3333333333333p-2%float.
Definition f0_1 : float := 0x1.999999999999ap-4%float.
Definition f0_33 : float := 0x1.51eb851eb851fp-2%float.
Definition f0_34 : float := 0x1.5c28f5c28f5c3p-2%float.
Definition f0_35 : float := 0x1.6666666666666p-2%float.
Definition f0_2 : float := 0x1.999999999999ap-3%float.
End Lit.

(** Containers of the demo's shape, for concrete runs: two panes at one
    half each and three panes at 0.33, 0.33, 0.34, 100 columns wide. *)
Definition twoPanes {F : Float64} (half : f64) : ResizableContainer ListPane :=
  {| id := "z"; width := 100; height := 24;
     children := [emptyPane; emptyPane];
     proportions := [half; half];
     dragHandler := NewDragHandler |}.

Definition threePanes {F : Float64} (p0 p1 p2 : f64) : ResizableContainer ListPane :=
  {| id := "z"; width := 100; height := 24;
     children := [emptyPane; emptyPane; emptyPane];
     proportions := [p0; p1; p2];
     dragHandler := NewDragHandler |}.

(* ===================================================================== *)
(** ** Streams of messages *)

(** The deltas a run of the controller reported, in order. *)
Definition deltas (outs : list (DragHandler * Report)) : list Z :=
  map (fun out => snd (snd out)) outs.

Definition sumZ (zs : list Z) : Z := fold_right Z.add 0 zs.

(** A coordinate far from the ends of [int], so that the difference of two
    does not wrap. *)
Definition on_screen (x : Z) : Prop := - 2 ^ 62 <= x < 2 ^ 62.

(** The controller after a run, [d] when the run is empty. *)
Definition lastHandler (d : DragHandler) (outs : list (DragHandler * Report)) : DragHandler :=
  last (map fst outs) d.

Definition is_left_release (msg : MouseMsg) : bool :=
  match Action msg with
  | MouseActionRelease => is_left (Button msg)
  | _ => false
  end.

Section Streams.

Context {F : Float64} {Pane : Type} {PaneModel : Model Pane}.

(** The container fed messages in order, each with the registry of the
    moment: the container at the end, or a panic on the way. *)
Fixpoint runUpdates (r : ResizableContainer Pane) (msgs : list (Zone * Msg))
    : option (ResizableContainer Pane) :=
  match msgs with
  | [] => Some r
  | (zone, msg) :: rest => out <- Update zone r msg ;; runUpdates (fst out) rest
  end.

(** A container with the identifier and the number of children of another,
    and well-formed. *)
Definition same_shape (r r' : ResizableContainer Pane) : Prop :=
  wf r' /\ id r' = id r /\ List.length (children r') = List.length (children r).

Definition is_size (msg : Msg) : bool :=
  match msg with WindowSizeMsg _ _ => true | _ => false end.

(** The handle of a drag in progress is one of the container's own. *)
Definition drag_target_known (r : ResizableContainer Pane) : Prop :=
  IsDragging (dragHandler r) = true ->
  In (GetDragHandleID (dragHandler r)) (getHandleIDs r).

End Streams.

(* ===================================================================== *)
(** ** View and renderHandle *)

(** [tea.Model]'s [View], on a child. *)
Class Viewable (Pane : Type) : Type := {
  view : Pane -> string
}.

(** lipgloss and the registry's [Mark], as far as [View] uses them. *)
Class Renderer : Type := {
  (** [lipgloss.NewStyle().Width(w).Height(h).Render(s)] *)
  renderSized : Z -> Z -> string -> string;
  (** [handleStyle.Render(s)], or [handleActiveStyle.Render(s)] when the
      flag is set *)
  renderHandleStyle : bool -> string -> string;
  (** [zone.Mark(id, s)] *)
  Mark : string -> string -> string;
  (** [lipgloss.JoinHorizontal(lipgloss.Top, parts...)] *)
  JoinHorizontal : list string -> string
}.

(** The vertical bar of a handle, as the bytes of the source's literal. *)
Definition bar : string :=
  String (ascii_of_nat 195) (String (ascii_of_nat 162)
  (String (ascii_of_nat 226) (String (ascii_of_nat 128) (String (ascii_of_nat 157)
  (String (ascii_of_nat 226) (String (ascii_of_nat 128) (String (ascii_of_nat 154)
  EmptyString))))))).

Definition newline : string := String (ascii_of_nat 10) EmptyString.

(** [for i := 0; i < r.height; i++ { if i > 0 { s += "\n" }; s += bar }] *)
Definition handleContent (height : Z) : string :=
  fold_left (fun acc i =>
               let sep := if 0 <? Z.of_nat i then newline else EmptyString in
               (acc ++ sep ++ bar)%string)
            (seq 0 (Z.to_nat height)) EmptyString.

(** What [View] appends to [parts]: a child's view at its size, or a
    handle with its identifier, its style and its content. *)
Inductive Part : Type :=
| PanePart (w h : Z) (content : string)
| HandlePart (handleID : string) (active : bool) (content : string).

Section Views.

Context {F : Float64} {Pane : Type} {PaneView : Viewable Pane} {R : Renderer}.

(** The test of [renderHandle]: a drag is in progress on this very handle. *)
Definition handleActive (r : ResizableContainer Pane) (handleID : string) : bool :=
  IsDragging (dragHandler r) && String.eqb (GetDragHandleID (dragHandler r)) handleID.

(** The handle [renderHandle] draws. *)
Definition handlePart (r : ResizableContainer Pane) (handleID : string) : Part :=
  HandlePart handleID (handleActive r handleID) (handleContent (height r)).

(** The test of [View]'s loop: child [i] is not the last, [i < len-1]. *)
Definition handleDrawn (r : ResizableContainer Pane) (i : nat) : bool :=
  Z.of_nat i <? GoInt.sub (len (children r)) 1.

Definition renderPart (part : Part) : string :=
  match part with
  | PanePart w h content => renderSized w h content
  | HandlePart handleID active content => Mark handleID (renderHandleStyle active content)
  end.

Definition renderHandle (r : ResizableContainer Pane) (handleID : string) : string :=
  renderPart (handlePart r handleID).

(** The loop of [View]: child [i], then handle [i] unless the child is the
    last. *)
Fixpoint viewLoop (r : ResizableContainer Pane) (aw : Z) (i : nat) (cs : list Pane)
    : option (list Part) :=
  match cs with
  | [] => Some []
  | child :: rest =>
      p <- index (proportions r) (Z.of_nat i) ;;
      let childView := PanePart (childWidth aw p) (height r) (view child) in
      let handle :=
        if handleDrawn r i then [handlePart r (getHandleID r i)] else [] in
      more <- viewLoop r aw (S i) rest ;;
      Some (childView :: handle ++ more)
  end.

Definition viewParts (r : ResizableContainer Pane) : option (list Part) :=
  viewLoop r (availableWidth r) 0 (children r).

Definition View (r : ResizableContainer Pane) : option string :=
  if len (children r) =? 0 then Some EmptyString
  else parts <- viewParts r ;; Some (JoinHorizontal (map renderPart parts)).

(** The identifiers [View] marks in the registry, in order. *)
Definition marked (parts : list Part) : list string :=
  flat_map (fun part => match part with
                        | HandlePart handleID _ _ => [handleID]
                        | PanePart _ _ _ => []
                        end) parts.

(** The sizes [View] draws the children at, in order. *)
Definition paneSizes (parts : list Part) : list Msg :=
  flat_map (fun part => match part with
                        | PanePart w h _ => [WindowSizeMsg w h]
                        | HandlePart _ _ _ => []
                        end) parts.

(** What [View] draws inside the children's boxes, in order. *)
Definition paneViews (parts : list Part) : list string :=
  flat_map (fun part => match part with
                        | PanePart _ _ content => [content]
                        | HandlePart _ _ _ => []
                        end) parts.

(** The identifiers of the handles drawn in the active style. *)
Definition activeHandles (parts : list Part) : list string :=
  flat_map (fun part => match part with
                        | HandlePart handleID true _ => [handleID]
                        | _ => []
                        end) parts.

End Views.

(** A pane's view and a renderer for concrete runs: plain text, no
    styling, the parts joined as they come. *)
#[export] Instance ListPaneView : Viewable ListPane := {|
  view := fun _ => "pane"%string
|}.

#[export] Instance plainRenderer : Renderer := {|
  renderSized := fun _ _ content => content;
  renderHandleStyle := fun _ content => content;
  Mark := fun _ content => content;
  JoinHorizontal := String.concat EmptyString
|}.

(** A release of the left button in column [x]. *)
Definition release (x : Z) : MouseMsg :=
  {| X := x; Y := 0; Action := MouseActionRelease; Button := MouseButtonLeft |}.

(* ===================================================================== *)
(** ** The list pane of the demo *)






(* ===================================================================== *)
(** ** header.go *)

Record headerButton : Type := {
  label : string;
  active : bool
}.

Record header_ : Type := {
  header_id : string;
  header_width : Z;
  header_height : Z;
  header_title : string;
  buttons : list headerButton
}.

(** [rune(x)] on an [int]: the low 32 bits, signed. *)
Definition rune (x : Z) : Z := (x + 2 ^ 31) mod 2 ^ 32 - 2 ^ 31.

Definition bytes (bs : list Z) : string :=
  string_of_list_ascii (map (fun b => ascii_of_nat (Z.to_nat b)) bs).

(** [string(r)] on a rune: its UTF-8 encoding, and that of U+FFFD for a
    surrogate half and for a value that is no code point. *)
Definition string_of_rune (r : Z) : string :=
  let i := r mod 2 ^ 32 in
  if i <=? 0x7F then bytes [i]
  else if i <=? 0x7FF then
    bytes [Z.lor 0xC0 (Z.shiftr i 6); Z.lor 0x80 (Z.land i 0x3F)]
  else
    let i := if (0x10FFFF <? i) || ((0xD800 <=? i) && (i <=? 0xDFFF)) then 0xFFFD else i in
    if i <=? 0xFFFF then
      bytes [Z.lor 0xE0 (Z.shiftr i 12);
             Z.lor 0x80 (Z.land (Z.shiftr i 6) 0x3F);
             Z.lor 0x80 (Z.land i 0x3F)]
    else
      bytes [Z.lor 0xF0 (Z.shiftr i 18);
             Z.lor 0x80 (Z.land (Z.shiftr i 12) 0x3F);
             Z.lor 0x80 (Z.land (Z.shiftr i 6) 0x3F);
             Z.lor 0x80 (Z.land i 0x3F)].

(** [h.id + "button_" + string(rune('0'+index))] *)
Definition getButtonID (h : header_) (index : Z) : string :=
  (header_id h ++ "button_" ++ string_of_rune (rune (GoInt.add 48 index)))%string.




(* ===================================================================== *)
(** ** main.go: the model of the program *)

(** [tea.Cmd], as far as [model.Update] returns one: nil or [tea.Quit]. *)
Inductive Cmd : Type :=
| CmdNil
| Quit.

Module Main.

Section Program.

Context {F : Float64} {Header Footer Pane : Type}
        {HeaderModel : Model Header} {HeaderView : Viewable Header}
        {FooterModel : Model Footer} {FooterView : Viewable Footer}
        {PaneModel : Model Pane}.

(** [lipgloss.Height] *)
Variable Height : string -> Z.

(** The case [tea.KeyMsg] of the type switch, with the key's [String()]:
    asked of the tag of a message that is neither a size nor a mouse
    message. *)
Variable keyString : string -> option string.

Record model : Type := {
  height : Z;
  width : Z;
  header : Header;
  footer : Footer;
  resizableContainer : ResizableContainer Pane
}.

Definition isInitialized (m : model) : bool :=
  negb (height m =? 0) && negb (width m =? 0).

(** [propagate]: the header first, then on a size message the footer and
    the container with what is left of the height, at least 1; on any other
    message the container, then the footer. *)
Definition propagate (zone : Zone) (m : model) (msg : Msg) : option model :=
  let header' := update msg (header m) in
  match msg with
  | WindowSizeMsg w h =>
      let headerH := Height (view header') in
      let footer' := update (WindowSizeMsg w h) (footer m) in
      let footerH := Height (view footer') in
      let middleH := GoInt.sub (GoInt.sub h headerH) footerH in
      let middleH := if middleH <? 1 then 1 else middleH in
      out <- Update zone (resizableContainer m) (WindowSizeMsg w middleH) ;;
      Some {| height := height m; width := width m; header := header';
              footer := footer'; resizableContainer := fst out |}
  | _ =>
      out <- Update zone (resizableContainer m) msg ;;
      Some {| height := height m; width := width m; header := header';
              footer := update msg (footer m); resizableContainer := fst out |}
  end.

Definition asKey (msg : Msg) : option string :=
  match msg with
  | OtherMsg tag => keyString tag
  | _ => None
  end.

(** [model.Update], with the registry's enabled flag that ctrl+e toggles:
    the model, the flag and the command returned. *)
Definition Update (zone : Zone) (enabled : bool) (m : model) (msg : Msg)
    : option (model * bool * Cmd) :=
  if negb (isInitialized m) && negb (is_size msg) then Some (m, enabled, CmdNil)
  else
    match msg with
    | WindowSizeMsg w h =>
        let m := {| height := h; width := w; header := header m; footer := footer m;
                    resizableContainer := resizableContainer m |} in
        m <- propagate zone m (WindowSizeMsg (GoInt.sub w 2) (GoInt.sub h 2)) ;;
        Some (m, enabled, CmdNil)
    | _ =>
        match asKey msg with
        | Some key =>
            if String.eqb key "ctrl+e" then Some (m, negb enabled, CmdNil)
            else if String.eqb key "ctrl+c" then Some (m, enabled, Quit)
            else m <- propagate zone m msg ;; Some (m, enabled, CmdNil)
        | None => m <- propagate zone m msg ;; Some (m, enabled, CmdNil)
        end
    end.

(** [Update] on the messages of a list in order, each with the registry of
    the moment: the model and the flag at the end, and the commands
    returned on the way. *)
Fixpoint runProgram (enabled : bool) (m : model) (msgs : list (Zone * Msg))
    : option (model * bool * list Cmd) :=
  match msgs with
  | [] => Some (m, enabled, [])
  | (zone, msg) :: rest =>
      out <- Update zone enabled m msg ;;
      done <- runProgram (snd (fst out)) (fst (fst out)) rest ;;
      Some (fst (fst done), snd (fst done), snd out :: snd done)
  end.

End Program.

End Main.

(* ===================================================================== *)
(** * Properties of the drag controller *)

Lemma find_none_outside (zone : Zone) (msg : MouseMsg) (handleIDs : list string) :
  (forall handleID, In handleID handleIDs -> zone handleID msg = false) ->
  find (fun handleID => zone handleID msg) handleIDs = None.
Proof.
  induction handleIDs as [|h t IH]; simpl; intros Hout.
  - reflexivity.
  - rewrite (Hout h) by now left. apply IH. intros x Hx. apply Hout. now right.
Qed.

Lemma motion_while_idle (zone : Zone) (d : DragHandler) (msg : MouseMsg) (ids : list string) :
  state d = DragStateIdle ->
  Action msg = MouseActionMotion ->
  HandleMouseEvent zone d msg ids = (d, unhandled).
Proof.
  intros Hidle Hmotion. unfold HandleMouseEvent. now rewrite Hmotion, Hidle.
Qed.

Lemma motions_while_idle (d : DragHandler) (evs : list Event) :
  state d = DragStateIdle ->
  Forall is_motion evs ->
  Forall (fun out => out = (d, unhandled)) (runEvents d evs).
Proof.
  intros Hidle Hall. induction Hall as [|[[zone ids] msg] rest Hm _ IH]; simpl.
  - constructor.
  - rewrite (motion_while_idle zone d msg ids Hidle Hm). constructor; [reflexivity | exact IH].
Qed.

(** C9.  From Idle, a press with no handle under the cursor followed by any
    run of motion events never opens a drag session: every event of the run,
    the press included, is reported unhandled, and [IsDragging] is false
    before the press and after each event. *)
Theorem press_outside_then_motion_never_drags
    (d : DragHandler) (zone : Zone) (handleIDs : list string) (press : MouseMsg)
    (motions : list Event) :
  state d = DragStateIdle ->
  Action press = MouseActionPress ->
  (forall handleID, In handleID handleIDs -> zone handleID press = false) ->
  Forall is_motion motions ->
  IsDragging d = false /\
  Forall (fun out => handled (snd out) = false /\ IsDragging (fst out) = false)
         (runEvents d ((zone, handleIDs, press) :: motions)).
Proof.
  intros Hidle Hpress Hout Hmotions.
  assert (Hd : IsDragging d = false) by (unfold IsDragging; now rewrite Hidle).
  split; [exact Hd|].
  assert (Hfirst : HandleMouseEvent zone d press handleIDs = (d, unhandled)).
  { unfold HandleMouseEvent. rewrite Hpress.
    destruct (is_left (Button press)); [|reflexivity].
    now rewrite (find_none_outside zone press handleIDs Hout). }
  simpl. rewrite Hfirst. simpl. constructor.
  - split; [reflexivity | exact Hd].
  - eapply Forall_impl; [|exact (motions_while_idle d motions Hidle Hmotions)].
    intros out ->. split; [reflexivity | exact Hd].
Qed.

Lemma press_outside_then_motion_never_drags_witness :
  let zone : Zone := fun _ _ => false in
  let press := {| X := 3; Y := 1; Action := MouseActionPress; Button := MouseButtonLeft |} in
  let move x := ((zone, ["handle_0"%string], {| X := x; Y := 1; Action := MouseActionMotion;
                                                 Button := MouseButtonLeft |}) : Event) in
  IsDragging NewDragHandler = false /\
  Forall (fun out => handled (snd out) = false /\ IsDragging (fst out) = false)
         (runEvents NewDragHandler ((zone, ["handle_0"%string], press) :: [move 4; move 9])).
Proof.
  intros zone press move.
  apply (press_outside_then_motion_never_drags NewDragHandler zone ["handle_0"%string] press
           [move 4; move 9]).
  - reflexivity.
  - reflexivity.
  - intros handleID _. reflexivity.
  - repeat constructor.
Defined.

(** C10.  Whenever [HandleMouseEvent] reports unhandled, the handle id it
    returns is empty, the delta is 0, and the controller is exactly as it was
    before the call. *)
Theorem unhandled_changes_nothing
    (zone : Zone) (d d' : DragHandler) (msg : MouseMsg) (handleIDs : list string)
    (handleID : string) (deltaX : Z) :
  HandleMouseEvent zone d msg handleIDs = (d', (false, handleID, deltaX)) ->
  handleID = EmptyString /\ deltaX = 0 /\ d' = d.
Proof.
  unfold HandleMouseEvent, unhandled.
  destruct (Action msg), (state d), (is_left (Button msg));
    try destruct (find _ handleIDs);
    intros Heq; inversion Heq; subst; auto.
Qed.

Lemma unhandled_changes_nothing_witness :
  let d := startDrag "handle_0" 12 in
  let msg := {| X := 20; Y := 0; Action := MouseActionRelease; Button := MouseButtonRight |} in
  EmptyString = EmptyString /\ 0 = 0 /\ d = d.
Proof.
  intros d msg.
  apply (unhandled_changes_nothing (fun _ _ => true) d d msg ["handle_0"%string] EmptyString 0).
  reflexivity.
Defined.

(* ===================================================================== *)
(** * Slices *)

Section Slices.

Context {A : Type}.

Lemma index_of_nat (s : list A) (i : nat) : index s (Z.of_nat i) = nth_error s i.
Proof.
  unfold index. destruct (Z.ltb_spec (Z.of_nat i) 0); [lia|]. now rewrite Nat2Z.id.
Qed.

Lemma store_of_nat (s : list A) (i : nat) (v : A) : store s (Z.of_nat i) v = store_nat s i v.
Proof.
  unfold store. destruct (Z.ltb_spec (Z.of_nat i) 0); [lia|]. now rewrite Nat2Z.id.
Qed.

Lemma store_nat_in_range (s : list A) (i : nat) (v : A) :
  (i < List.length s)%nat ->
  store_nat s i v = Some (firstn i s ++ v :: skipn (S i) s).
Proof.
  revert i. induction s as [|x s IH]; intros [|i] Hi; simpl in *; try lia.
  - reflexivity.
  - rewrite (IH i) by lia. reflexivity.
Qed.

Lemma store_nat_length (s s' : list A) (i : nat) (v : A) :
  store_nat s i v = Some s' -> List.length s' = List.length s.
Proof.
  revert i s'. induction s as [|x s IH]; intros [|i] s'; simpl; try discriminate.
  - intros [= <-]. reflexivity.
  - destruct (store_nat s i v) as [t|] eqn:E; simpl; [|discriminate].
    intros [= <-]. simpl. now rewrite (IH _ _ E).
Qed.

Lemma store_nat_same (s s' : list A) (i : nat) (v : A) :
  store_nat s i v = Some s' -> nth_error s' i = Some v.
Proof.
  revert i s'. induction s as [|x s IH]; intros [|i] s'; simpl; try discriminate.
  - intros [= <-]. reflexivity.
  - destruct (store_nat s i v) as [t|] eqn:E; simpl; [|discriminate].
    intros [= <-]. simpl. now apply IH.
Qed.

Lemma store_nat_other (s s' : list A) (i j : nat) (v : A) :
  store_nat s i v = Some s' -> j <> i -> nth_error s' j = nth_error s j.
Proof.
  revert i j s'. induction s as [|x s IH]; intros [|i] j s'; simpl; try discriminate.
  - intros [= <-] Hj. destruct j; [congruence | reflexivity].
  - destruct (store_nat s i v) as [t|] eqn:E; simpl; [|discriminate].
    intros [= <-] Hj. destruct j; simpl; [reflexivity|]. apply (IH _ _ _ E). congruence.
Qed.

Lemma split_at_pair (s : list A) (h : nat) (a b : A) :
  nth_error s h = Some a ->
  nth_error s (S h) = Some b ->
  s = firstn h s ++ a :: b :: skipn (S (S h)) s.
Proof.
  revert h. induction s as [|x s IH]; intros [|h] Ha Hb; simpl in *; try discriminate.
  - destruct s as [|y s]; simpl in *; [discriminate|]. congruence.
  - f_equal. now apply IH.
Qed.

End Slices.

(* ===================================================================== *)
(** * Go integers and handle identifiers *)

Lemma wrap_in_range (z : Z) :
  GoInt.min_int <= z <= GoInt.max_int -> GoInt.wrap z = z.
Proof.
  unfold GoInt.wrap, GoInt.min_int, GoInt.max_int. intros Hz.
  rewrite Z.mod_small; lia.
Qed.

Lemma Itoa_injective (i j : nat) : GoInt.Itoa i = GoInt.Itoa j -> i = j.
Proof.
  unfold GoInt.Itoa. intros Heq.
  assert (Hu : Some (Nat.to_uint i) = Some (Nat.to_uint j)).
  { rewrite <- (NilEmpty.usu (Nat.to_uint i)), <- (NilEmpty.usu (Nat.to_uint j)).
    now rewrite Heq. }
  injection Hu as Hu.
  rewrite <- (Unsigned.of_to i), <- (Unsigned.of_to j). now rewrite Hu.
Qed.

Lemma append_cancel (p a b : string) : (p ++ a)%string = (p ++ b)%string -> a = b.
Proof.
  induction p as [|c p IH]; simpl; intros Heq; [exact Heq|].
  injection Heq as Heq. now apply IH.
Qed.

(* ===================================================================== *)
(** * The container, for any float64 arithmetic *)

Section ContainerFacts.

Context {F : Float64} {Pane : Type} {PaneModel : Model Pane}.

Implicit Types (r : ResizableContainer Pane) (ps : list f64) (cs : list Pane).

Lemma getHandleID_injective r (i j : nat) : getHandleID r i = getHandleID r j -> i = j.
Proof.
  unfold getHandleID. intros Heq.
  apply append_cancel in Heq. apply (append_cancel "handle_") in Heq.
  now apply Itoa_injective.
Qed.

Lemma find_from_seq (f : nat -> bool) (h start n : nat) :
  (start <= h < start + n)%nat ->
  f h = true ->
  (forall i, (start <= i < h)%nat -> f i = false) ->
  find f (seq start n) = Some h.
Proof.
  revert start. induction n as [|n IH]; intros start Hh Hf Hbefore; simpl; [lia|].
  destruct (Nat.eq_dec start h) as [->|Hne].
  - now rewrite Hf.
  - rewrite (Hbefore start) by lia. apply IH; [lia | exact Hf |].
    intros i Hi. apply Hbefore. lia.
Qed.

(** A handle's own identifier resolves to its index. *)
Lemma findHandleIndex_own r (h : nat) :
  (h < List.length (children r) - 1)%nat ->
  findHandleIndex r (getHandleID r h) = Z.of_nat h.
Proof.
  intros Hh. unfold findHandleIndex, handleIndices.
  rewrite (find_from_seq _ h 0 _).
  - reflexivity.
  - lia.
  - apply String.eqb_refl.
  - intros i Hi. apply String.eqb_neq. intros Heq.
    apply getHandleID_injective in Heq. lia.
Qed.

(** An identifier that is no handle's resolves to -1. *)
Lemma findHandleIndex_unknown r (handleID : string) :
  (forall i, In i (handleIndices r) -> getHandleID r i <> handleID) ->
  findHandleIndex r handleID = -1.
Proof.
  intros Hnone. unfold findHandleIndex.
  destruct (find _ (handleIndices r)) as [i|] eqn:Efind; [|reflexivity].
  apply find_some in Efind. destruct Efind as [Hin Heq].
  apply String.eqb_eq in Heq. now apply Hnone in Hin.
Qed.

Lemma resizeLoop_sends (aw h : Z) ps cs :
  forall (before rest : list f64),
    ps = before ++ rest ->
    List.length rest = List.length cs ->
    resizeLoop aw h ps (len before) cs = Some (resized aw h cs rest, sizes aw h rest).
Proof.
  induction cs as [|child cs IH]; intros before rest Hps Hlen.
  - destruct rest; [reflexivity | discriminate].
  - destruct rest as [|p rest]; [discriminate|]. simpl in Hlen.
    cbn [resizeLoop]. 
    assert (Hp : index ps (len before) = Some p).
    { unfold len. rewrite index_of_nat, Hps, nth_error_app2, Nat.sub_diag by lia.
      reflexivity. }
    rewrite Hp. cbn [bind].
    replace (len before + 1) with (len (before ++ [p]))
      by (unfold len; rewrite length_app; simpl; lia).
    rewrite (IH (before ++ [p]) rest).
    + reflexivity.
    + rewrite Hps, <- app_assoc. reflexivity.
    + lia.
Qed.

Lemma resizeChildren_sends r :
  List.length (children r) = List.length (proportions r) ->
  resizeChildren r =
    Some (with_children r (resized (availableWidth r) (height r) (children r) (proportions r)),
          sizes (availableWidth r) (height r) (proportions r)).
Proof.
  intros Hlen. unfold resizeChildren.
  change 0 with (len (@nil f64)).
  rewrite (resizeLoop_sends _ _ (proportions r) (children r) [] (proportions r));
    [reflexivity | reflexivity | now symmetry].
Qed.

Lemma resized_length (aw h : Z) cs ps :
  List.length cs = List.length ps -> List.length (resized aw h cs ps) = List.length cs.
Proof.
  intros Hlen. unfold resized. rewrite length_map, length_combine. lia.
Qed.

(** What a resize does, whatever the available width is. *)
Lemma Update_resize (zone : Zone) r (w h : Z) :
  List.length (children r) = List.length (proportions r) ->
  let aw := availableWidth (with_size r w h) in
  Update zone r (WindowSizeMsg w h) =
    Some (with_children (with_size r w h) (resized aw h (children r) (proportions r)),
          sizes aw h (proportions r)).
Proof.
  intros Hlen aw. simpl. now rewrite resizeChildren_sends.
Qed.

Lemma store_pair ps (h : nat) (l v : f64) :
  (S h < List.length ps)%nat ->
  (ps1 <- store_nat ps h l ;; store_nat ps1 (S h) v) = Some (setPair ps h l v).
Proof.
  revert h. induction ps as [|x ps IH]; intros h Hh; simpl in Hh; [lia|].
  destruct h as [|h].
  - destruct ps as [|y ps]; simpl in *; [lia | reflexivity].
  - specialize (IH h ltac:(lia)). cbn [store_nat].
    destruct (store_nat ps h l) as [ps1|]; cbn [bind] in *; [|discriminate].
    cbn [store_nat]. rewrite IH. reflexivity.
Qed.

Lemma setPair_length ps (h : nat) (l v : f64) :
  (S h < List.length ps)%nat -> List.length (setPair ps h l v) = List.length ps.
Proof.
  intros Hh. unfold setPair. rewrite length_app, length_firstn.
  cbn [List.length]. rewrite length_skipn. lia.
Qed.

Lemma setPair_left ps (h : nat) (l v : f64) :
  (S h < List.length ps)%nat -> nth_error (setPair ps h l v) h = Some l.
Proof.
  intros Hh. unfold setPair.
  rewrite nth_error_app2; rewrite length_firstn, Nat.min_l by lia; [|lia].
  now rewrite Nat.sub_diag.
Qed.

Lemma setPair_right ps (h : nat) (l v : f64) :
  (S h < List.length ps)%nat -> nth_error (setPair ps h l v) (S h) = Some v.
Proof.
  intros Hh. unfold setPair.
  rewrite nth_error_app2; rewrite length_firstn, Nat.min_l by lia; [|lia].
  replace (S h - h)%nat with 1%nat by lia. reflexivity.
Qed.


Lemma setPair_split ps (h : nat) (pl pr l v : f64) :
  nth_error ps h = Some pl ->
  nth_error ps (S h) = Some pr ->
  exists before after,
    ps = before ++ pl :: pr :: after /\
    setPair ps h l v = before ++ l :: v :: after.
Proof.
  intros Hl Hr. exists (firstn h ps), (skipn (S (S h)) ps). split.
  - now apply split_at_pair.
  - reflexivity.
Qed.

(** A drag of handle [h] at a positive available width commits the pair
    computed by the clamps and then renormalises. *)
Lemma drag_commits r (h : nat) (deltaX : Z) (pl pr : f64) :
  wf r ->
  (h < List.length (children r) - 1)%nat ->
  0 < availableWidth r ->
  nth_error (proportions r) h = Some pl ->
  nth_error (proportions r) (S h) = Some pr ->
  let lr := redistribute (availableWidth r) pl pr deltaX in
  updateProportionsFromDrag r (getHandleID r h) deltaX =
    Some (normalizeProportions
            (with_proportions r (setPair (proportions r) h (fst lr) (snd lr)))).
Proof.
  intros [Hlen Hmax] Hh Haw Hpl Hpr lr. unfold updateProportionsFromDrag.
  rewrite (findHandleIndex_own r h Hh).
  destruct (Z.eqb_spec (Z.of_nat h) (-1)) as [Hneg|_]; [lia|].
  destruct (Z.leb_spec (availableWidth r) 0) as [Hle|_]; [lia|].
  assert (Hnext : GoInt.add (Z.of_nat h) 1 = Z.of_nat (S h)).
  { unfold GoInt.add. rewrite wrap_in_range; [lia|].
    unfold len, GoInt.min_int, GoInt.max_int in *. lia. }
  rewrite Hnext, !index_of_nat, Hpl, Hpr. cbn [bind].
  fold (pairOf (availableWidth r) pl pr).
  fold (redistribute (availableWidth r) pl pr deltaX). fold lr.
  destruct lr as [newLeftProp newRightProp] eqn:Elr. cbn [fst snd].
  pose proof (store_pair (proportions r) h newLeftProp newRightProp ltac:(lia)) as Hstore.
  rewrite !store_of_nat.
  destruct (store_nat (proportions r) h newLeftProp) as [ps1|]; cbn [bind] in *;
    [|discriminate].
  rewrite store_of_nat, Hstore. reflexivity.
Qed.

Lemma availableWidth_with_children r cs :
  List.length cs = List.length (children r) ->
  availableWidth (with_children r cs) = availableWidth r.
Proof.
  intros Hlen. unfold availableWidth, len. simpl. now rewrite Hlen.
Qed.

End ContainerFacts.

(* ===================================================================== *)
(** * Properties that hold in any float64 arithmetic *)

Section ContainerClaims.

Context {F : Float64} {Pane : Type} {PaneModel : Model Pane}.

Implicit Types (r : ResizableContainer Pane).

Lemma wf_resize (zone : Zone) r r' (w h : Z) (sent : list Msg) :
  wf r -> Update zone r (WindowSizeMsg w h) = Some (r', sent) -> wf r'.
Proof.
  intros [Hlen Hmax] Hup. rewrite (Update_resize zone r w h Hlen) in Hup.
  injection Hup as <- _. unfold wf, len in *. simpl.
  rewrite resized_length by exact Hlen. split; assumption.
Qed.

(** C8.  A drag whose handle identifier is no handle's of the container is
    ignored: [updateProportionsFromDrag] returns the container as it was,
    proportions and every other field. *)
Theorem unknown_handle_is_ignored r (handleID : string) (deltaX : Z) :
  (forall i, In i (handleIndices r) -> getHandleID r i <> handleID) ->
  updateProportionsFromDrag r handleID deltaX = Some r.
Proof.
  intros Hunknown. unfold updateProportionsFromDrag.
  now rewrite (findHandleIndex_unknown r handleID Hunknown).
Qed.

(** The redistribution is skipped when the available width is not positive. *)
Lemma drag_skipped_when_degenerate r (handleID : string) (deltaX : Z) :
  availableWidth r <= 0 ->
  updateProportionsFromDrag r handleID deltaX = Some r.
Proof.
  intros Haw. unfold updateProportionsFromDrag.
  destruct (findHandleIndex r handleID =? -1); [reflexivity|].
  destruct (Z.leb_spec (availableWidth r) 0); [reflexivity | lia].
Qed.

(** C4, as the code has it.  When the available width is not positive the
    redistribution is a no-op; a resize is not: it stores the new size and
    sends every child the width [int(float64(availableWidth) * proportion)]
    with the new height, as it does at any other width. *)
Theorem degenerate_geometry (zone : Zone) r (w h : Z) (handleID : string) (deltaX : Z) :
  wf r ->
  (availableWidth r <= 0 -> updateProportionsFromDrag r handleID deltaX = Some r) /\
  (availableWidth (with_size r w h) <= 0 ->
   Update zone r (WindowSizeMsg w h) =
     Some (with_children (with_size r w h)
             (resized (availableWidth (with_size r w h)) h (children r) (proportions r)),
           sizes (availableWidth (with_size r w h)) h (proportions r))).
Proof.
  intros [Hlen _]. split.
  - apply drag_skipped_when_degenerate.
  - intros _. apply (Update_resize zone r w h Hlen).
Qed.

(** C7.  Two resizes with the same width and height send every child the
    same sizes both times, and leave the same stored width and height (and
    the same proportions, identifier and drag session). *)
Theorem resize_is_idempotent (zone zone' : Zone) r (w h : Z) :
  wf r ->
  exists r1 r2 (sent : list Msg),
    Update zone r (WindowSizeMsg w h) = Some (r1, sent) /\
    Update zone' r1 (WindowSizeMsg w h) = Some (r2, sent) /\
    sent = sizes (availableWidth r1) h (proportions r) /\
    (width r1, height r1) = (w, h) /\
    (width r2, height r2) = (w, h) /\
    (id r2, proportions r2, dragHandler r2) = (id r1, proportions r1, dragHandler r1).
Proof.
  intros [Hlen Hmax].
  pose proof (Update_resize zone r w h Hlen) as H1. cbv zeta in H1.
  set (aw := availableWidth (with_size r w h)) in *.
  set (r1 := with_children (with_size r w h) (resized aw h (children r) (proportions r))) in *.
  assert (Hlen1 : List.length (children r1) = List.length (proportions r1)).
  { simpl. now rewrite resized_length. }
  pose proof (Update_resize zone' r1 w h Hlen1) as H2. cbv zeta in H2.
  assert (Haw : availableWidth (with_size r1 w h) = aw).
  { unfold aw, availableWidth, len. simpl. now rewrite resized_length. }
  rewrite Haw in H2.
  eexists r1, _, _. split; [exact H1|]. split; [exact H2|].
  repeat split.
  unfold r1. rewrite availableWidth_with_children; [reflexivity|].
  simpl. now rewrite resized_length.
Qed.

End ContainerClaims.

(* ===================================================================== *)
(** * The container in binary64: the scenarios, run *)

Section Binary64Runs.

#[local] Existing Instance Binary64.ops.

Local Open Scope float_scope.

(** Runs the left-hand side of an equation and takes the result as the
    right-hand side. *)
Ltac run :=
  match goal with
  | |- ?lhs = _ => let v := eval vm_compute in lhs in change lhs with v; reflexivity
  end.

(** C5.  Two panes at [0.5, 0.5], width 100: the available width is 99; a
    press on the handle and a move by +10 gives deltaPercent 10/99, no clamp
    fires, the proportions become 0.60101... and 0.39898..., and the panes
    are sent the widths 59 and 39.  First in binary64, then in exact
    arithmetic. *)
Theorem drag_by_ten_scenario :
  ((exists r : ResizableContainer (F := Binary64.ops) ListPane,
      sized [Lit.f0_5; Lit.f0_5] 100 24 = Some r /\
      availableWidth r = 99%Z /\
      proportions r = [Lit.f0_5; Lit.f0_5]) /\
   (let c := pairOf (F := Binary64.ops) 99 Lit.f0_5 Lit.f0_5 in
    let deltaPercent := fdiv (of_int 10) (of_int 99) in
    let t := tentative c deltaPercent in
    deltaPercent = 0x1.9dbcc48676f31p-4 /\
    minProportion c = 0x1.6a052bf5a814bp-2 /\
    flt (fst t) (minProportion c) = false /\
    flt maxProportion (fst t) = false /\
    flt (snd t) (minProportion c) = false /\
    flt maxProportion (snd t) = false /\
    redistribute 99 Lit.f0_5 Lit.f0_5 10 = t) /\
   (exists r' : ResizableContainer (F := Binary64.ops) ListPane,
      dragScenario [Lit.f0_5; Lit.f0_5] 100 24 0 49 10 =
        Some (r', [WindowSizeMsg 59 24; WindowSizeMsg 39 24]) /\
      proportions r' = [0x1.33b79890cede6p-1; 0x1.9890cede62434p-2] /\
      children r' = [{| paneWidth := 59; paneHeight := 24 |};
                     {| paneWidth := 39; paneHeight := 24 |}]) /\
   (0x1.3374bc6a7ef9ep-1 <? 0x1.33b79890cede6p-1) = true /\
   (0x1.33b79890cede6p-1 <? 0x1.33f7ced916873p-1) = true /\
   (0x1.9810624dd2f1bp-2 <? 0x1.9890cede62434p-2) = true /\
   (0x1.9890cede62434p-2 <? 0x1.9916872b020c5p-2) = true)
  /\
  (exists (r' : ResizableContainer (F := Exact.ops) ListPane) (l v : Q),
     dragScenario (F := Exact.ops) [1 # 2; 1 # 2]%Q 100 24 0 49 10 =
       Some (r', [WindowSizeMsg 59 24; WindowSizeMsg 39 24]) /\
     proportions r' = [l; v] /\
     (l == 119 # 198)%Q /\ (v == 79 # 198)%Q /\
     (redistribute (F := Exact.ops) 99 (1 # 2) (1 # 2) 10 =
      tentative (pairOf (F := Exact.ops) 99 (1 # 2) (1 # 2)) (inject_Z 10 / inject_Z 99))%Q).
Proof.
  split.
  - split; [|split; [|split]].
    + eexists. split; [run|]. split; reflexivity.
    + vm_compute. repeat split.
    + eexists. split; [run|]. split; reflexivity.
    + vm_compute. repeat split.
  - eexists _, _, _. split; [run|].
    split; [reflexivity|]. repeat split.
Qed.

(** With three panes of proportions [0.33, 0.33, 0.34] at width 100,
    dragging handle 0 leaves the third proportion as it was, bit for bit. *)
Example three_panes_third_untouched :
  exists (r0 r : ResizableContainer (F := Binary64.ops) ListPane) (sent : list Msg),
    sized [Lit.f0_33; Lit.f0_33; Lit.f0_34] 100 24 = Some r0 /\
    dragScenario [Lit.f0_33; Lit.f0_33; Lit.f0_34] 100 24 0 32 5 = Some (r, sent) /\
    proportions r0 = [Lit.f0_33; Lit.f0_33; Lit.f0_34] /\
    proportions r = [0x1.36202ecfb9c87p-2; 0x1.6db6db6db6db7p-2; Lit.f0_34].
Proof.
  eexists _, _, _. split; [run|].
  split; [run|]. split; reflexivity.
Qed.


(** The renormalisation can lift a value over a bound the clamps have just
    enforced.  Two panes built from [0.35, 0.2], width 215: the available
    width is 214 and the minimum 35/214, so that the pair can meet both
    bounds; a move of the handle by +107 is clamped to (0.7, 0.3), and the
    division by the total leaves 0.7000000000000001 for the left pane,
    above the maximum. *)
Example renormalisation_lifts_pane_above_maximum :
  exists (r0 r : ResizableContainer (F := Binary64.ops) ListPane) (sent : list Msg),
    sized [Lit.f0_35; Lit.f0_2] 215 24 = Some r0 /\
    proportions r0 = [0x1.45d1745d1745cp-1; 0x1.745d1745d1746p-2] /\
    availableWidth r0 = 214%Z /\
    fst (redistribute 214 0x1.45d1745d1745cp-1 0x1.745d1745d1746p-2 107) =
      0x1.6666666666666p-1 /\
    dragScenario [Lit.f0_35; Lit.f0_2] 215 24 0 136 107 = Some (r, sent) /\
    proportions r = [0x1.6666666666667p-1; 0x1.3333333333333p-2] /\
    flt maxProportion 0x1.6666666666667p-1 = true.
Proof.
  eexists _, _, _. split; [run|].
  split; [reflexivity|]. split; [reflexivity|].
  split; [run|]. split; [run|]. split; reflexivity.
Qed.

(** C4 fails.  Three panes at [0.5, 0.25, 0.25] and a resize to width 0:
    the available width is -2, every pane is still sent a size, and the
    first is sent the width -1. *)
Lemma resize_to_width_zero_sends_negative_width :
  exists r r' : ResizableContainer (F := Binary64.ops) ListPane,
    NewResizableContainer "z" [emptyPane; emptyPane; emptyPane]
      [Lit.f0_5; Lit.f0_25; Lit.f0_25] = Some r /\
    Update (fun _ _ => false) r (WindowSizeMsg 0 24) =
      Some (r', [WindowSizeMsg (-1) 24; WindowSizeMsg 0 24; WindowSizeMsg 0 24]) /\
    availableWidth r' = (-2)%Z /\
    children r' = [{| paneWidth := -1; paneHeight := 24 |};
                   {| paneWidth := 0; paneHeight := 24 |};
                   {| paneWidth := 0; paneHeight := 24 |}].
Proof.
  eexists _, _. split; [run|].
  split; [run|]. split; reflexivity.
Qed.



(** In binary64 the sum of the proportions is 1 only up to rounding: across
    the run above it is 1.0000000000000002 and then 0.9999999999999999, each
    within 1e-9 of 1. *)
Example sum_within_epsilon_in_binary64 :
  exists (r0 r : ResizableContainer (F := Binary64.ops) ListPane) (sent : list Msg),
    sized [Lit.f0_3; Lit.f0_3; Lit.f0_3; Lit.f0_1] 1000 24 = Some r0 /\
    dragScenario [Lit.f0_3; Lit.f0_3; Lit.f0_3; Lit.f0_1] 1000 24 0 299 5 = Some (r, sent) /\
    sum (proportions r0) = 0x1.0000000000001p+0 /\
    sum (proportions r) = 0x1.fffffffffffffp-1 /\
    (abs (sum (proportions r0) - 1) <? 0x1.12e0be826d695p-30) = true /\
    (abs (sum (proportions r) - 1) <? 0x1.12e0be826d695p-30) = true.
Proof.
  eexists _, _, _. split; [run|].
  split; [run|]. repeat split; vm_compute; reflexivity.
Qed.

End Binary64Runs.

(* ===================================================================== *)
(** * The redistribution of a drag *)



Section Clamps.

Context {F : Float64}.

Implicit Types (c : Pair) (lr : f64 * f64).






End Clamps.

Section DragClaims.

Context {F : Float64} {Pane : Type} {PaneModel : Model Pane}.

Implicit Types (r : ResizableContainer Pane).






End DragClaims.

Section DragBounds.

#[local] Existing Instance Binary64.ops.

Context {Pane : Type} {PaneModel : Model Pane}.

Implicit Types (r : ResizableContainer (F := Binary64.ops) Pane).


End DragBounds.

(* ===================================================================== *)
(** * The properties at concrete containers *)




Lemma degenerate_geometry_witness :
  let r := threePanes (F := Binary64.ops) Lit.f0_5 Lit.f0_25 Lit.f0_25 in
  let narrow := with_size r 0 24 in
  (availableWidth narrow <= 0) /\
  updateProportionsFromDrag narrow "zhandle_0" 3 = Some narrow /\
  Update (fun _ _ => false) r (WindowSizeMsg 0 24) =
    Some (with_children narrow
            (resized (availableWidth narrow) 24 (children r) (proportions r)),
          sizes (availableWidth narrow) 24 (proportions r)).
Proof.
  intros r narrow.
  assert (Hwf : wf r) by (split; [reflexivity | vm_compute; discriminate]).
  assert (Hwf' : wf narrow) by exact Hwf.
  assert (Haw : availableWidth narrow <= 0) by (vm_compute; discriminate).
  split; [exact Haw|]. split.
  - exact (proj1 (degenerate_geometry (fun _ _ => false) narrow 0 24 "zhandle_0" 3 Hwf') Haw).
  - exact (proj2 (degenerate_geometry (fun _ _ => false) r 0 24 "zhandle_0" 3 Hwf) Haw).
Defined.

Lemma resize_is_idempotent_witness :
  let r := twoPanes (F := Binary64.ops) Lit.f0_5 in
  exists r1 r2 (sent : list Msg),
    Update (fun _ _ => false) r (WindowSizeMsg 80 24) = Some (r1, sent) /\
    Update (fun _ _ => true) r1 (WindowSizeMsg 80 24) = Some (r2, sent) /\
    sent = sizes (availableWidth r1) 24 (proportions r) /\
    (width r1, height r1) = (80, 24) /\
    (width r2, height r2) = (80, 24) /\
    (id r2, proportions r2, dragHandler r2) = (id r1, proportions r1, dragHandler r1).
Proof.
  intros r.
  apply (resize_is_idempotent (fun _ _ => false) (fun _ _ => true) r 80 24).
  split; [reflexivity | vm_compute; discriminate].
Defined.

Lemma unknown_handle_is_ignored_witness :
  let r := twoPanes (F := Binary64.ops) Lit.f0_5 in
  updateProportionsFromDrag r "zhandle_7" 10 = Some r.
Proof.
  intros r.
  apply (unknown_handle_is_ignored r "zhandle_7" 10).
  intros i Hin. simpl in Hin. destruct Hin as [<- | []]. vm_compute. discriminate.
Defined.

(* ===================================================================== *)
(** * Further properties of the drag controller *)

Lemma wrap_add_l (a b : Z) : GoInt.wrap (GoInt.wrap a + b) = GoInt.wrap (a + b).
Proof.
  unfold GoInt.wrap. f_equal.
  replace ((a + 2 ^ 63) mod 2 ^ 64 - 2 ^ 63 + b + 2 ^ 63)
    with ((a + 2 ^ 63) mod 2 ^ 64 + b) by lia.
  rewrite Z.add_mod_idemp_l by (apply Z.pow_nonzero; lia). f_equal. lia.
Qed.

Lemma wrap_add_r (a b : Z) : GoInt.wrap (a + GoInt.wrap b) = GoInt.wrap (a + b).
Proof. rewrite Z.add_comm, wrap_add_l. f_equal. lia. Qed.

Lemma last_cons_default {A : Type} (a d : A) (l : list A) : last (a :: l) d = last l a.
Proof.
  revert a d. induction l as [|b l IH]; intros a d; [reflexivity|].
  change (last (a :: b :: l) d) with (last (b :: l) d). now rewrite !IH.
Qed.

Lemma motion_while_dragging (zone : Zone) (d : DragHandler) (msg : MouseMsg) (ids : list string) :
  state d = DragStateDragging ->
  Action msg = MouseActionMotion ->
  HandleMouseEvent zone d msg ids =
    ({| state := DragStateDragging; dragHandleID := dragHandleID d; lastX := X msg |},
     (true, dragHandleID d, GoInt.sub (X msg) (lastX d))).
Proof.
  intros Hdrag Hmotion. unfold HandleMouseEvent. now rewrite Hmotion, Hdrag.
Qed.

Lemma press_on_handle (zone : Zone) (d : DragHandler) (msg : MouseMsg) (ids : list string)
    (handleID : string) :
  Action msg = MouseActionPress ->
  Button msg = MouseButtonLeft ->
  find (fun id => zone id msg) ids = Some handleID ->
  HandleMouseEvent zone d msg ids = (startDrag handleID (X msg), (true, handleID, 0)).
Proof.
  intros Hpress Hleft Hfind. unfold HandleMouseEvent. now rewrite Hpress, Hleft, Hfind.
Qed.

Lemma left_release_while_dragging (zone : Zone) (d : DragHandler) (msg : MouseMsg)
    (ids : list string) :
  state d = DragStateDragging ->
  is_left_release msg = true ->
  HandleMouseEvent zone d msg ids = (stopDrag, (true, dragHandleID d, 0)).
Proof.
  unfold is_left_release, HandleMouseEvent. intros Hdrag Hrel.
  destruct (Action msg); try discriminate. now rewrite Hdrag, Hrel.
Qed.

Lemma runEvents_app (d : DragHandler) (evs evs' : list Event) :
  runEvents d (evs ++ evs') =
  runEvents d evs ++ runEvents (lastHandler d (runEvents d evs)) evs'.
Proof.
  revert d. induction evs as [|[[zone ids] msg] evs IH]; intros d; [reflexivity|].
  cbn [runEvents app]. rewrite IH. unfold lastHandler. cbn [map].
  now rewrite last_cons_default.
Qed.

Lemma lastHandler_cons (d d1 : DragHandler) (rep : Report) (outs : list (DragHandler * Report)) :
  lastHandler d ((d1, rep) :: outs) = lastHandler d1 outs.
Proof. unfold lastHandler. cbn [map fst]. apply last_cons_default. Qed.

Lemma sum_deltas_cons (d1 : DragHandler) (rep : Report) (outs : list (DragHandler * Report)) :
  sumZ (deltas ((d1, rep) :: outs)) = snd rep + sumZ (deltas outs).
Proof. reflexivity. Qed.

(** What a run of motions does to a drag in progress. *)
Lemma motions_while_dragging (evs : list Event) :
  forall d : DragHandler,
    state d = DragStateDragging ->
    Forall is_motion evs ->
    Forall (fun out => fst (snd out) = (true, dragHandleID d) /\
                       state (fst out) = DragStateDragging) (runEvents d evs) /\
    state (lastHandler d (runEvents d evs)) = DragStateDragging /\
    dragHandleID (lastHandler d (runEvents d evs)) = dragHandleID d /\
    lastX (lastHandler d (runEvents d evs)) =
      last (map (fun ev : Event => X (snd ev)) evs) (lastX d) /\
    GoInt.wrap (sumZ (deltas (runEvents d evs))) =
      GoInt.wrap (lastX (lastHandler d (runEvents d evs)) - lastX d).
Proof.
  induction evs as [|[[zone ids] msg] evs IH]; intros d Hdrag Hall.
  - unfold lastHandler. cbn [runEvents map last deltas sumZ fold_right].
    split; [constructor|]. repeat split; try assumption. f_equal. lia.
  - inversion Hall as [|ev evs' Hm Hrest]; subst. unfold is_motion in Hm. cbn [snd] in Hm.
    cbn [runEvents]. rewrite (motion_while_dragging zone d msg ids Hdrag Hm). cbn [fst].
    set (d1 := {| state := DragStateDragging; dragHandleID := dragHandleID d;
                  lastX := X msg |}).
    destruct (IH d1 eq_refl Hrest) as (Hall1 & Hstate & Hid & Hlast & Hsum).
    rewrite lastHandler_cons, sum_deltas_cons. cbn [snd map].
    rewrite last_cons_default. repeat split.
    + constructor; [now split | exact Hall1].
    + exact Hstate.
    + exact Hid.
    + exact Hlast.
    + unfold GoInt.sub.
      rewrite wrap_add_l, <- wrap_add_r, Hsum, wrap_add_r. f_equal.
      change (lastX d1) with (X msg). lia.
Qed.

Lemma motions_without_overflow (evs : list Event) :
  forall d : DragHandler,
    state d = DragStateDragging ->
    Forall is_motion evs ->
    on_screen (lastX d) ->
    Forall (fun ev : Event => on_screen (X (snd ev))) evs ->
    sumZ (deltas (runEvents d evs)) =
    last (map (fun ev : Event => X (snd ev)) evs) (lastX d) - lastX d.
Proof.
  induction evs as [|[[zone ids] msg] evs IH]; intros d Hdrag Hall Hd Hxs.
  - cbn. lia.
  - inversion Hall as [|ev evs' Hm Hrest]; subst. unfold is_motion in Hm. cbn [snd] in Hm.
    inversion Hxs as [|ev evs' Hx Hxs']; subst. cbn [snd] in Hx.
    cbn [runEvents]. rewrite (motion_while_dragging zone d msg ids Hdrag Hm).
    rewrite sum_deltas_cons. cbn [fst snd map].
    set (d1 := {| state := DragStateDragging; dragHandleID := dragHandleID d;
                  lastX := X msg |}).
    rewrite (IH d1 eq_refl Hrest Hx Hxs'). change (lastX d1) with (X msg).
    rewrite last_cons_default. unfold GoInt.sub.
    rewrite wrap_in_range; [lia|].
    unfold on_screen, GoInt.min_int, GoInt.max_int in *. lia.
Qed.

Lemma stays_dragging (zone : Zone) (d : DragHandler) (msg : MouseMsg) (ids : list string) :
  state d = DragStateDragging ->
  is_left_release msg = false ->
  state (fst (HandleMouseEvent zone d msg ids)) = DragStateDragging.
Proof.
  unfold is_left_release, HandleMouseEvent. intros Hdrag Hrel.
  destruct (Action msg); rewrite ?Hdrag, ?Hrel; cbn.
  - destruct (is_left (Button msg)); [|exact Hdrag].
    now destruct (find _ ids).
  - exact Hdrag.
  - reflexivity.
Qed.

Lemma idle_stays_clear (zone : Zone) (d : DragHandler) (msg : MouseMsg) (ids : list string) :
  (state d = DragStateIdle -> d = NewDragHandler) ->
  state (fst (HandleMouseEvent zone d msg ids)) = DragStateIdle ->
  fst (HandleMouseEvent zone d msg ids) = NewDragHandler.
Proof.
  unfold HandleMouseEvent. intros Hclear.
  destruct (Action msg), (state d) eqn:Hstate, (is_left (Button msg));
    try destruct (find _ ids); cbn; intros Hidle;
    try discriminate; try reflexivity; try (now apply Hclear); congruence.
Qed.

(** X1.  During a drag, every motion is handled and reported for the handle
    being dragged, the controller remembers the last position, and the
    deltas reported add up to the distance from where the drag stood to the
    last position: always so modulo 2^64, and exactly when the coordinates
    are far from the ends of [int]. *)
Theorem drag_deltas_add_up (d : DragHandler) (evs : list Event) :
  state d = DragStateDragging ->
  Forall is_motion evs ->
  let outs := runEvents d evs in
  let d' := lastHandler d outs in
  Forall (fun out => fst (snd out) = (true, dragHandleID d)) outs /\
  lastX d' = last (map (fun ev : Event => X (snd ev)) evs) (lastX d) /\
  GoInt.wrap (sumZ (deltas outs)) = GoInt.wrap (lastX d' - lastX d) /\
  (on_screen (lastX d) ->
   Forall (fun ev : Event => on_screen (X (snd ev))) evs ->
   sumZ (deltas outs) = lastX d' - lastX d).
Proof.
  intros Hdrag Hall outs d'.
  destruct (motions_while_dragging evs d Hdrag Hall) as (Houts & _ & _ & Hlast & Hsum).
  fold outs in Houts, Hlast, Hsum. fold d' in Hlast, Hsum.
  split; [|split; [exact Hlast | split; [exact Hsum|]]].
  - eapply Forall_impl; [|exact Houts]. now intros out [Hrep _].
  - intros Hd Hxs. rewrite Hlast. now apply motions_without_overflow.
Qed.

(** X2.  A whole drag: a left press with the cursor in the region of a
    handle, any number of motions, a left release.  Whatever the controller
    was doing before, every event of the run is handled and reported for the
    first handle, in the order given, whose region held the press; the
    controller is dragging after every event but the last, and ends as a
    new controller: idle, with no handle and position 0. *)
Theorem drag_session_lifecycle
    (d : DragHandler) (zone : Zone) (ids : list string) (pressMsg : MouseMsg)
    (motions : list Event) (zone' : Zone) (ids' : list string) (releaseMsg : MouseMsg)
    (handleID : string) :
  Action pressMsg = MouseActionPress ->
  Button pressMsg = MouseButtonLeft ->
  find (fun id => zone id pressMsg) ids = Some handleID ->
  Forall is_motion motions ->
  is_left_release releaseMsg = true ->
  let outs := runEvents d ((zone, ids, pressMsg) :: motions ++ [(zone', ids', releaseMsg)]) in
  Forall (fun out => fst (snd out) = (true, handleID)) outs /\
  Forall (fun out => IsDragging (fst out) = true) (removelast outs) /\
  lastHandler d outs = NewDragHandler.
Proof.
  intros Hpress Hleft Hfind Hmotions Hrelease outs. subst outs.
  cbn [runEvents]. rewrite (press_on_handle zone d pressMsg ids handleID Hpress Hleft Hfind).
  cbn [fst]. set (d1 := startDrag handleID (X pressMsg)).
  rewrite runEvents_app.
  destruct (motions_while_dragging motions d1 eq_refl Hmotions)
    as (Houts & Hstate & Hid & _ & _).
  set (outs := runEvents d1 motions) in *.
  set (d2 := lastHandler d1 outs) in *.
  cbn [runEvents].
  rewrite (left_release_while_dragging zone' d2 releaseMsg ids' Hstate Hrelease).
  rewrite Hid. change (dragHandleID d1) with handleID in *.
  split; [|split].
  - constructor; [reflexivity|]. apply Forall_app. split.
    + eapply Forall_impl; [|exact Houts]. now intros out [Hrep _].
    + now constructor.
  - change ((d1, (true, handleID, 0)) :: outs ++ [(stopDrag, (true, handleID, 0))])
      with (((d1, (true, handleID, 0)) :: outs) ++ [(stopDrag, (true, handleID, 0))]).
    rewrite removelast_last. constructor; [reflexivity|].
    revert Houts. apply Forall_impl. intros [dh rep] [_ Hs]. cbn [fst] in *.
    unfold IsDragging. now rewrite Hs.
  - rewrite lastHandler_cons. unfold lastHandler. rewrite map_app. cbn [map fst].
    now rewrite last_last.
Qed.

(** X3.  Starting from a new controller, after any events whatever, a
    controller that is not dragging is exactly a new controller: it holds no
    handle identifier and position 0. *)
Theorem idle_controller_is_clear (evs : list Event) :
  Forall (fun out => IsDragging (fst out) = false -> fst out = NewDragHandler)
         (runEvents NewDragHandler evs).
Proof.
  assert (Hgen : forall d, (state d = DragStateIdle -> d = NewDragHandler) ->
            Forall (fun out => IsDragging (fst out) = false -> fst out = NewDragHandler)
                   (runEvents d evs)).
  { induction evs as [|[[zone ids] msg] evs IH]; intros d Hclear; cbn [runEvents].
    - constructor.
    - pose proof (idle_stays_clear zone d msg ids Hclear) as Hnext.
      constructor.
      + cbn [fst]. unfold IsDragging. intros Hidle. apply Hnext.
        now destruct (state (fst (HandleMouseEvent zone d msg ids))).
      + apply IH. intros Hidle. now apply Hnext. }
  apply Hgen. reflexivity.
Qed.

(** X4.  Nothing but a release of the left button ends a drag: while
    dragging, through any events none of which is a left release, the
    controller is dragging after each. *)
Theorem only_left_release_ends_drag (d : DragHandler) (evs : list Event) :
  state d = DragStateDragging ->
  Forall (fun ev : Event => is_left_release (snd ev) = false) evs ->
  Forall (fun out => IsDragging (fst out) = true) (runEvents d evs).
Proof.
  revert d. induction evs as [|[[zone ids] msg] evs IH]; intros d Hdrag Hall; cbn [runEvents].
  - constructor.
  - inversion Hall as [|ev evs' Hrel Hrest]; subst. cbn [snd] in Hrel.
    pose proof (stays_dragging zone d msg ids Hdrag Hrel) as Hnext.
    constructor.
    + cbn [fst]. unfold IsDragging. now rewrite Hnext.
    + now apply IH.
Qed.

Lemma unhandled_frame (zone : Zone) (d : DragHandler) (msg : MouseMsg) (ids : list string) :
  fst (fst (snd (HandleMouseEvent zone d msg ids))) = false ->
  fst (HandleMouseEvent zone d msg ids) = d.
Proof.
  unfold HandleMouseEvent.
  destruct (Action msg), (state d), (is_left (Button msg));
    try destruct (find _ ids); cbn; intros Heq; try discriminate; reflexivity.
Qed.

(* ===================================================================== *)
(** * Further properties of the container, for any float64 arithmetic *)

Section ContainerMore.

Context {F : Float64} {Pane : Type} {PaneModel : Model Pane}.

Implicit Types (r : ResizableContainer Pane) (ps : list f64) (cs : list Pane).

Lemma findHandleIndex_resolves r (handleID : string) :
  findHandleIndex r handleID = -1 \/
  exists h : nat, (h < List.length (children r) - 1)%nat /\
                  handleID = getHandleID r h /\
                  findHandleIndex r handleID = Z.of_nat h.
Proof.
  unfold findHandleIndex.
  destruct (find _ (handleIndices r)) as [h|] eqn:Efind; [right | now left].
  apply find_some in Efind. destruct Efind as [Hin Heq].
  apply String.eqb_eq in Heq. apply in_seq in Hin. exists h.
  split; [lia | split; [now symmetry | reflexivity]].
Qed.

Lemma pair_in_range r (h : nat) :
  wf r -> (h < List.length (children r) - 1)%nat ->
  exists pl pr, nth_error (proportions r) h = Some pl /\
                nth_error (proportions r) (S h) = Some pr.
Proof.
  intros [Hlen _] Hh.
  destruct (nth_error (proportions r) h) as [pl|] eqn:El.
  - destruct (nth_error (proportions r) (S h)) as [pr|] eqn:Er.
    + now exists pl, pr.
    + apply nth_error_None in Er. lia.
  - apply nth_error_None in El. lia.
Qed.

Lemma normalize_keeps_shape r :
  let r' := normalizeProportions r in
  List.length (proportions r') = List.length (proportions r) /\
  (id r', width r', height r', children r', dragHandler r') =
  (id r, width r, height r, children r, dragHandler r).
Proof.
  unfold normalizeProportions. destruct (flt fzero (sum (proportions r))); cbn.
  - now rewrite length_map.
  - now split.
Qed.

(** The redistribution never panics on a well-formed container, and changes
    nothing but the proportions, whose number it keeps. *)
Lemma drag_keeps_shape r (handleID : string) (deltaX : Z) :
  wf r ->
  exists r',
    updateProportionsFromDrag r handleID deltaX = Some r' /\
    List.length (proportions r') = List.length (proportions r) /\
    (id r', width r', height r', children r', dragHandler r') =
    (id r, width r, height r, children r, dragHandler r).
Proof.
  intros Hwf.
  destruct (findHandleIndex_resolves r handleID) as [Hnone | (h & Hh & -> & _)].
  - exists r. unfold updateProportionsFromDrag. rewrite Hnone. now cbn.
  - destruct (Z.leb_spec (availableWidth r) 0) as [Hle|Hpos].
    + exists r. now rewrite drag_skipped_when_degenerate.
    + destruct (pair_in_range r h Hwf Hh) as (pl & pr & Hl & Hr).
      rewrite (drag_commits r h deltaX pl pr Hwf Hh Hpos Hl Hr). cbv zeta.
      eexists. split; [reflexivity|].
      set (lr := redistribute (availableWidth r) pl pr deltaX).
      destruct (normalize_keeps_shape
                  (with_proportions r (setPair (proportions r) h (fst lr) (snd lr))))
        as [Hlen Hsame].
      split; [|exact Hsame]. rewrite Hlen. cbn [proportions with_proportions].
      apply setPair_length. apply nth_error_Some. congruence.
Qed.

Lemma Update_keeps_shape (zone : Zone) r (msg : Msg) :
  wf r -> exists r' sent, Update zone r msg = Some (r', sent) /\ same_shape r r'.
Proof.
  intros Hwf. pose proof Hwf as [Hlen Hmax]. destruct msg as [w h | m | tag].
  - rewrite (Update_resize zone r w h Hlen). eexists _, _. split; [reflexivity|].
    unfold same_shape, wf, len in *. cbn [children proportions id with_children with_size].
    rewrite resized_length by exact Hlen. repeat split; assumption.
  - cbn [Update].
    destruct (HandleMouseEvent zone (dragHandler r) m (getHandleIDs r))
      as [d [[isHandled handleID] deltaX]].
    assert (Hwf1 : wf (with_dragHandler r d)) by exact Hwf.
    destruct (isHandled && negb (deltaX =? 0)).
    + destruct (drag_keeps_shape (with_dragHandler r d) handleID deltaX Hwf1)
        as (r1 & -> & Hlen1 & Hsame). cbn [bind].
      injection Hsame as Hid _ _ Hcs _. cbn in Hid, Hcs, Hlen1.
      assert (Hlen1' : List.length (children r1) = List.length (proportions r1))
        by (rewrite Hcs, Hlen1; exact Hlen).
      rewrite (resizeChildren_sends r1 Hlen1'). eexists _, _. split; [reflexivity|].
      unfold same_shape, wf, len in *. cbn [children proportions id with_children].
      rewrite resized_length by exact Hlen1'. rewrite Hcs. repeat split; try assumption.
      now rewrite Hlen1.
    + destruct (negb isHandled).
      * eexists _, _. split; [reflexivity|].
        unfold same_shape, wf, len in *. cbn. rewrite length_map. repeat split; assumption.
      * eexists _, _. split; [reflexivity|]. now repeat split.
  - eexists _, _. split; [reflexivity|].
    unfold same_shape, wf, len in *. cbn. rewrite length_map. repeat split; assumption.
Qed.

End ContainerMore.

Section ContainerExtras.

Context {F : Float64} {Pane : Type} {PaneModel : Model Pane}.

Implicit Types (r : ResizableContainer Pane).

Lemma NoDup_map_injective {A B : Type} (f : A -> B) (l : list A) :
  (forall a b, f a = f b -> a = b) -> NoDup l -> NoDup (map f l).
Proof.
  intros Hinj Hnd. induction Hnd as [|a l Hnotin _ IH]; cbn; constructor.
  - intros Hin. apply in_map_iff in Hin. destruct Hin as (b & Heq & Hb).
    apply Hinj in Heq. now subst.
  - exact IH.
Qed.

(** X5.  A container of N children has N-1 handle identifiers (none for
    N = 0), no two of them equal; the identifier of handle [h] resolves back
    to [h], and an identifier that resolves to an index is the identifier of
    that handle. *)
Theorem handle_ids_round_trip r :
  List.length (getHandleIDs r) = (List.length (children r) - 1)%nat /\
  NoDup (getHandleIDs r) /\
  (forall h : nat, (h < List.length (children r) - 1)%nat ->
     nth_error (getHandleIDs r) h = Some (getHandleID r h) /\
     findHandleIndex r (getHandleID r h) = Z.of_nat h) /\
  (forall handleID : string, findHandleIndex r handleID <> -1 ->
     0 <= findHandleIndex r handleID < Z.of_nat (List.length (children r) - 1) /\
     getHandleID r (Z.to_nat (findHandleIndex r handleID)) = handleID).
Proof.
  unfold getHandleIDs, handleIndices. repeat split.
  - now rewrite length_map, length_seq.
  - apply NoDup_map_injective; [apply getHandleID_injective | apply seq_NoDup].
  - rewrite nth_error_map, nth_error_seq.
    now rewrite (proj2 (Nat.ltb_lt _ _) H).
  - now apply findHandleIndex_own.
  - destruct (findHandleIndex_resolves r handleID) as [Hnone | (h & Hh & _ & ->)]; lia.
  - destruct (findHandleIndex_resolves r handleID) as [Hnone | (h & Hh & _ & ->)]; lia.
  - destruct (findHandleIndex_resolves r handleID) as [Hnone | (h & Hh & -> & Hidx)];
      [contradiction|].
    now rewrite findHandleIndex_own, Nat2Z.id.
Qed.

(** X6.  A well-formed container takes any stream of messages without a
    panic, and stays well-formed, with the same identifier and the same
    number of children. *)
Theorem updates_never_panic r (msgs : list (Zone * Msg)) :
  wf r ->
  exists r', runUpdates r msgs = Some r' /\ same_shape r r'.
Proof.
  revert r. induction msgs as [|[zone msg] msgs IH]; intros r Hwf; cbn [runUpdates].
  - exists r. split; [reflexivity|]. split; [exact Hwf | now split].
  - destruct (Update_keeps_shape zone r msg Hwf) as (r1 & sent & -> & Hwf1 & Hid1 & Hcs1).
    cbn [bind fst]. destruct (IH r1 Hwf1) as (r' & -> & Hwf' & Hid' & Hcs').
    exists r'. split; [reflexivity|]. split; [exact Hwf' | split; congruence].
Qed.

(** X7.  A mouse message goes to the drag controller first.  One the
    controller handles is never passed to the children: they are sent sizes
    only, and nothing at all when the delta is 0 (a press on a handle, a
    release, a motion in place), in which case proportions and children are
    untouched.  One the controller does not handle is passed unchanged to
    every child, in order, and changes neither proportions nor the drag
    session. *)
Theorem mouse_is_consumed_or_forwarded (zone : Zone) r (m : MouseMsg) :
  wf r ->
  let out := HandleMouseEvent zone (dragHandler r) m (getHandleIDs r) in
  exists r' sent,
    Update zone r (Mouse m) = Some (r', sent) /\
    dragHandler r' = fst out /\
    (handled (snd out) = true ->
       Forall (fun msg => is_size msg = true) sent /\
       (snd (snd out) = 0 ->
          sent = [] /\ proportions r' = proportions r /\ children r' = children r)) /\
    (handled (snd out) = false ->
       sent = map (fun _ => Mouse m) (children r) /\
       children r' = map (update (Mouse m)) (children r) /\
       proportions r' = proportions r /\
       dragHandler r' = dragHandler r).
Proof.
  intros Hwf out. pose proof Hwf as [Hlen Hmax].
  pose proof (unhandled_frame zone (dragHandler r) m (getHandleIDs r)) as Hframe.
  fold out in Hframe. cbn [Update]. fold out.
  destruct out as [d [[isHandled handleID] deltaX]]. unfold handled. cbn [fst snd] in *.
  assert (Hwf1 : wf (with_dragHandler r d)) by exact Hwf.
  destruct isHandled; cbn [andb negb].
  - destruct (Z.eqb_spec deltaX 0) as [->|Hdelta]; cbn [negb].
    + eexists _, _. split; [reflexivity|]. split; [reflexivity|].
      split; [|discriminate]. intros _. split; [constructor|]. now intros _.
    + destruct (drag_keeps_shape (with_dragHandler r d) handleID deltaX Hwf1)
        as (r1 & -> & Hlen1 & Hsame). cbn [bind].
      injection Hsame as _ _ _ Hcs Hd. cbn in Hcs, Hd, Hlen1.
      assert (Hlen1' : List.length (children r1) = List.length (proportions r1))
        by (rewrite Hcs, Hlen1; exact Hlen).
      rewrite (resizeChildren_sends r1 Hlen1'). eexists _, _. split; [reflexivity|].
      split; [exact Hd|]. split; [|discriminate]. intros _. split; [|contradiction].
      unfold sizes. apply Forall_map. now apply Forall_forall.
  - eexists _, _. split; [reflexivity|]. cbn [dragHandler with_dragHandler propagate
      with_children children proportions fst snd].
    split; [reflexivity|]. split; [discriminate|]. intros _.
    repeat split. now apply Hframe.
Qed.

End ContainerExtras.

(* ===================================================================== *)
(** * Properties of View *)

Section ViewFacts.

Context {F : Float64} {Pane : Type} {PaneModel : Model Pane} {PaneView : Viewable Pane}
        {R : Renderer}.

Implicit Types (r : ResizableContainer Pane) (cs : list Pane).

Lemma viewLoop_parts r (aw : Z) cs :
  forall i : nat,
    (i + List.length cs <= List.length (proportions r))%nat ->
    exists parts,
      viewLoop r aw i cs = Some parts /\
      marked parts = map (getHandleID r) (filter (handleDrawn r) (seq i (List.length cs))) /\
      activeHandles parts = filter (handleActive r) (marked parts) /\
      paneViews parts = map view cs /\
      paneSizes parts =
        sizes aw (height r) (firstn (List.length cs) (skipn i (proportions r))) /\
      List.length parts = (List.length cs + List.length (marked parts))%nat.
Proof.
  induction cs as [|child cs IH]; intros i Hi.
  - exists []. now cbn.
  - cbn [List.length] in Hi.
    destruct (nth_error (proportions r) i) as [p|] eqn:Ep;
      [|apply nth_error_None in Ep; lia].
    destruct (IH (S i) ltac:(lia))
      as (more & Hloop & Hmarked & Hactive & Hviews & Hsizes & Hlen).
    cbn [viewLoop]. rewrite index_of_nat, Ep. cbn [bind]. rewrite Hloop. cbn [bind].
    eexists. split; [reflexivity|].
    cbn [List.length seq filter].
    assert (Hskip : firstn (S (List.length cs)) (skipn i (proportions r)) =
                    p :: firstn (List.length cs) (skipn (S i) (proportions r))).
    { clear - Ep. revert i Ep. induction (proportions r) as [|q qs IHq]; intros [|i] Ep;
        cbn in *; try discriminate.
      - now injection Ep as ->.
      - now apply IHq. }
    rewrite Hskip.
    unfold marked, activeHandles, paneSizes, paneViews in *.
    destruct (handleDrawn r i);
      cbn [flat_map app map handlePart List.length filter sizes];
      rewrite Hsizes, Hmarked, Hviews; repeat split.
    + rewrite Hactive, Hmarked. now destruct (handleActive r (getHandleID r i)).
    + rewrite Hlen, Hmarked. cbn [List.length]. lia.
    + now rewrite Hactive, Hmarked.
    + rewrite Hlen, Hmarked. cbn [List.length]. lia.
Qed.

Lemma drawn_handles r :
  wf r ->
  filter (handleDrawn r) (seq 0 (List.length (children r))) = handleIndices r.
Proof.
  intros [_ Hmax]. unfold handleIndices, handleDrawn.
  assert (Hsub : GoInt.sub (len (children r)) 1 = len (children r) - 1).
  { unfold GoInt.sub. apply wrap_in_range.
    unfold len, GoInt.min_int, GoInt.max_int in *. lia. }
  rewrite Hsub. unfold len. generalize (List.length (children r)). intros n.
  destruct n as [|n]; [reflexivity|].
  replace (S n - 1)%nat with n by lia.
  replace (S n) with (n + 1)%nat by lia.
  rewrite seq_app, filter_app. cbn [seq filter Nat.add].
  destruct (Z.ltb_spec (Z.of_nat n) (Z.of_nat (n + 1) - 1)) as [Hlt|_]; [lia|].
  rewrite app_nil_r. apply forallb_filter_id. apply forallb_forall.
  intros i Hin. apply in_seq in Hin. apply Z.ltb_lt. lia.
Qed.

Lemma filter_eqb_NoDup (a : string) (l : list string) :
  NoDup l ->
  filter (String.eqb a) l = if in_dec string_dec a l then [a] else [].
Proof.
  intros Hnd. induction Hnd as [|b l Hnotin Hnd IH]; [reflexivity|].
  cbn [filter]. destruct (String.eqb_spec a b) as [<-|Hne].
  - rewrite IH. destruct (in_dec string_dec a l) as [Hin|_]; [contradiction|].
    destruct (in_dec string_dec a (a :: l)) as [_|Hout]; [reflexivity|].
    exfalso. apply Hout. now left.
  - rewrite IH. destruct (in_dec string_dec a l) as [Hin|Hout];
      destruct (in_dec string_dec a (b :: l)) as [Hin'|Hout']; try reflexivity.
    + exfalso. apply Hout'. now right.
    + destruct Hin' as [->|Hin']; [now contradiction Hne | contradiction].
Qed.

Lemma handleIDs_NoDup r : NoDup (getHandleIDs r).
Proof.
  unfold getHandleIDs, handleIndices.
  apply NoDup_map_injective; [apply getHandleID_injective | apply seq_NoDup].
Qed.

(** What [View] draws on a well-formed container. *)
Lemma viewParts_of r :
  wf r ->
  exists parts,
    viewParts r = Some parts /\
    marked parts = getHandleIDs r /\
    activeHandles parts = filter (handleActive r) (getHandleIDs r) /\
    paneViews parts = map view (children r) /\
    paneSizes parts = sizes (availableWidth r) (height r) (proportions r) /\
    List.length parts = (2 * List.length (children r) - 1)%nat.
Proof.
  intros Hwf. pose proof Hwf as [Hlen _].
  destruct (viewLoop_parts r (availableWidth r) (children r) 0 ltac:(cbn; lia))
    as (parts & Hloop & Hmarked & Hactive & Hviews & Hsizes & Hcount).
  rewrite (drawn_handles r Hwf) in Hmarked. fold (getHandleIDs r) in Hmarked.
  exists parts. repeat split.
  - exact Hloop.
  - exact Hmarked.
  - now rewrite Hactive, Hmarked.
  - exact Hviews.
  - rewrite Hsizes, Hlen. cbn [skipn]. now rewrite firstn_all.
  - rewrite Hcount, Hmarked. unfold getHandleIDs, handleIndices.
    rewrite length_map, length_seq. lia.
Qed.

(** Where the parts of [View]'s loop stand: child [k] of the rest at
    position [2k], and its handle right after it, when every child of the
    rest but the last has a handle drawn. *)
Lemma viewLoop_positions r (aw : Z) cs :
  forall (i : nat) (parts : list Part),
    viewLoop r aw i cs = Some parts ->
    (forall j : nat, (j < List.length cs)%nat ->
       handleDrawn r (i + j) = (S j <? List.length cs)%nat) ->
    forall (k : nat) (child : Pane),
      nth_error cs k = Some child ->
      exists p : f64,
        nth_error (proportions r) (i + k) = Some p /\
        nth_error parts (2 * k) =
          Some (PanePart (childWidth aw p) (height r) (view child)) /\
        ((S k < List.length cs)%nat ->
         nth_error parts (2 * k + 1) = Some (handlePart r (getHandleID r (i + k)))).
Proof.
  induction cs as [|c cs IH]; intros i parts Hloop Hdrawn k child Hk.
  - destruct k; discriminate.
  - cbn [viewLoop] in Hloop. rewrite index_of_nat in Hloop.
    destruct (nth_error (proportions r) i) as [p|] eqn:Ep; [|discriminate].
    cbn [bind] in Hloop.
    destruct (viewLoop r aw (S i) cs) as [more|] eqn:Emore; [|discriminate].
    cbn [bind] in Hloop. injection Hloop as <-.
    pose proof (Hdrawn 0%nat ltac:(cbn; lia)) as Hfirst.
    rewrite Nat.add_0_r in Hfirst. rewrite Hfirst. cbn [List.length].
    destruct k as [|k].
    + injection Hk as <-. exists p. rewrite Nat.add_0_r.
      split; [exact Ep|]. split; [reflexivity|]. intros Hmore.
      destruct (Nat.ltb_spec 1 (S (List.length cs))) as [_|Hle]; [reflexivity | lia].
    + cbn [nth_error] in Hk.
      assert (Hrest : forall j : nat, (j < List.length cs)%nat ->
                handleDrawn r (S i + j) = (S j <? List.length cs)%nat).
      { intros j Hj. specialize (Hdrawn (S j) ltac:(cbn; lia)).
        cbn [List.length] in Hdrawn.
        replace (i + S j)%nat with (S i + j)%nat in Hdrawn by lia.
        rewrite Hdrawn. now destruct (Nat.ltb_spec (S (S j)) (S (List.length cs)));
          destruct (Nat.ltb_spec (S j) (List.length cs)); try lia. }
      destruct (IH (S i) more Emore Hrest k child Hk) as (q & Hq & Hpane & Hhandle).
      assert (Hsome : (k < List.length cs)%nat)
        by (apply nth_error_Some; congruence).
      destruct (Nat.ltb_spec 1 (S (List.length cs))) as [_|Hle]; [|lia].
      exists q. replace (i + S k)%nat with (S i + k)%nat by lia.
      split; [exact Hq|].
      replace (2 * S k)%nat with (S (S (2 * k))) by lia.
      replace (S (S (2 * k)) + 1)%nat with (S (S (2 * k + 1))) by lia.
      cbn [app nth_error]. split; [exact Hpane|].
      intros Hmore. apply Hhandle. lia.
Qed.

(** X9.  [View] never panics on a well-formed container.  It draws the
    children in order, each with its own view in a box of the size the
    resize loop computes for it, with one handle after every child but the
    last: of the 2N-1 parts for N children, part [2k] is child [k] and
    part [2k+1] the handle [k], marked with the [k]-th identifier of
    [getHandleIDs]; the empty string when there is no child. *)
Theorem view_interleaves_children_and_handles r :
  wf r ->
  exists parts,
    viewParts r = Some parts /\
    View r = Some (if len (children r) =? 0 then EmptyString
                   else JoinHorizontal (map renderPart parts)) /\
    marked parts = getHandleIDs r /\
    paneViews parts = map view (children r) /\
    paneSizes parts = sizes (availableWidth r) (height r) (proportions r) /\
    List.length parts = (2 * List.length (children r) - 1)%nat /\
    (forall (k : nat) (child : Pane),
       nth_error (children r) k = Some child ->
       exists p : f64,
         nth_error (proportions r) k = Some p /\
         nth_error parts (2 * k) =
           Some (PanePart (childWidth (availableWidth r) p) (height r) (view child))) /\
    (forall k : nat,
       (k < List.length (children r) - 1)%nat ->
       nth_error (getHandleIDs r) k = Some (getHandleID r k) /\
       nth_error parts (2 * k + 1) =
         Some (HandlePart (getHandleID r k) (handleActive r (getHandleID r k))
                          (handleContent (height r)))).
Proof.
  intros Hwf.
  destruct (viewParts_of r Hwf) as (parts & Hparts & Hmarked & _ & Hviews & Hsizes & Hcount).
  assert (Hdrawn : forall j : nat, (j < List.length (children r))%nat ->
            handleDrawn r (0 + j) = (S j <? List.length (children r))%nat).
  { intros j Hj. destruct Hwf as [_ Hmax]. unfold handleDrawn. cbn [Nat.add].
    assert (Hsub : GoInt.sub (len (children r)) 1 = len (children r) - 1).
    { unfold GoInt.sub. apply wrap_in_range.
      unfold len, GoInt.min_int, GoInt.max_int in *. lia. }
    rewrite Hsub. unfold len.
    destruct (Z.ltb_spec (Z.of_nat j) (Z.of_nat (List.length (children r)) - 1));
      destruct (Nat.ltb_spec (S j) (List.length (children r))); try reflexivity; lia. }
  exists parts. repeat split; try assumption.
  - unfold View. rewrite Hparts. now destruct (len (children r) =? 0).
  - intros k child Hk.
    destruct (viewLoop_positions r (availableWidth r) (children r) 0 parts
                Hparts Hdrawn k child Hk) as (p & Hp & Hpane & _).
    now exists p.
  - unfold getHandleIDs, handleIndices.
    rewrite nth_error_map, nth_error_seq.
    now rewrite (proj2 (Nat.ltb_lt _ _) H).
  - destruct (nth_error (children r) k) as [child|] eqn:Ek;
      [|apply nth_error_None in Ek; lia].
    destruct (viewLoop_positions r (availableWidth r) (children r) 0 parts
                Hparts Hdrawn k child Ek) as (p & _ & _ & Hhandle).
    apply Hhandle. lia.
Qed.

Lemma forwarded_is_no_size r (msg : Msg) :
  is_size msg = false ->
  Forall (fun m => is_size m = true) (snd (propagate r msg)) ->
  snd (propagate r msg) = [].
Proof.
  intros Hmsg Hall. cbn [propagate snd] in *.
  destruct (children r) as [|c cs']; [reflexivity|].
  cbn [map] in Hall. inversion Hall. congruence.
Qed.

(** X10.  After a resize, and after a drag that moved, [View] draws every
    child in a box of exactly the size the child was last sent. *)
Theorem view_draws_at_the_sizes_sent (zone : Zone) r (msg : Msg) :
  wf r ->
  exists r' sent parts,
    Update zone r msg = Some (r', sent) /\
    viewParts r' = Some parts /\
    (Forall (fun m => is_size m = true) sent -> sent <> [] -> paneSizes parts = sent).
Proof.
  intros Hwf. pose proof Hwf as [Hlen Hmax].
  assert (Hresize : forall r1, wf r1 ->
            exists r' sent parts,
              resizeChildren r1 = Some (r', sent) /\
              viewParts r' = Some parts /\ paneSizes parts = sent).
  { intros r1 [Hlen1 Hmax1]. rewrite (resizeChildren_sends r1 Hlen1).
    set (r' := with_children r1 _).
    assert (Hwf' : wf r').
    { unfold wf, len in *. cbn [r' children proportions with_children].
      rewrite resized_length by exact Hlen1. now split. }
    destruct (viewParts_of r' Hwf') as (parts & Hparts & _ & _ & _ & Hsizes & _).
    exists r', (sizes (availableWidth r1) (height r1) (proportions r1)), parts.
    split; [reflexivity|]. split; [exact Hparts|]. rewrite Hsizes.
    unfold availableWidth, len. cbn [r' children proportions with_children height width].
    now rewrite resized_length by exact Hlen1. }
  destruct msg as [w h | m | tag].
  - cbn [Update].
    destruct (Hresize (with_size r w h) Hwf) as (r' & sent & parts & -> & Hparts & Hsizes).
    now exists r', sent, parts.
  - cbn [Update].
    destruct (HandleMouseEvent zone (dragHandler r) m (getHandleIDs r))
      as [d [[isHandled handleID] deltaX]].
    assert (Hwf1 : wf (with_dragHandler r d)) by exact Hwf.
    destruct (isHandled && negb (deltaX =? 0)).
    + destruct (drag_keeps_shape (with_dragHandler r d) handleID deltaX Hwf1)
        as (r1 & -> & Hlen1 & Hsame). cbn [bind].
      injection Hsame as _ _ _ Hcs _. cbn in Hcs, Hlen1.
      assert (Hwf1' : wf r1).
      { unfold wf in *. rewrite Hcs, Hlen1. now split. }
      destruct (Hresize r1 Hwf1') as (r' & sent & parts & -> & Hparts & Hsizes).
      now exists r', sent, parts.
    + destruct (negb isHandled).
      * set (out := propagate (with_dragHandler r d) (Mouse m)).
        assert (Hwf' : wf (fst out)).
        { unfold wf, len in *. cbn. rewrite length_map. now split. }
        destruct (viewParts_of (fst out) Hwf') as (parts & Hparts & _).
        exists (fst out), (snd out), parts. split; [now destruct out|].
        split; [exact Hparts|]. intros Hall Hne. exfalso.
        now apply Hne, (forwarded_is_no_size (with_dragHandler r d) (Mouse m)).
      * destruct (viewParts_of (with_dragHandler r d) Hwf1) as (parts & Hparts & _).
        exists (with_dragHandler r d), [], parts. split; [reflexivity|].
        split; [exact Hparts|]. now intros _ Hne.
  - cbn [Update]. set (out := propagate r (OtherMsg tag)).
    assert (Hwf' : wf (fst out)).
    { unfold wf, len in *. cbn. rewrite length_map. now split. }
    destruct (viewParts_of (fst out) Hwf') as (parts & Hparts & _).
    exists (fst out), (snd out), parts. split; [now destruct out|].
    split; [exact Hparts|]. intros Hall Hne. exfalso.
    now apply Hne, (forwarded_is_no_size r (OtherMsg tag)).
Qed.

Lemma handleIDs_of_shape r r' :
  same_shape r r' -> getHandleIDs r' = getHandleIDs r.
Proof.
  intros (_ & Hid & Hcs). unfold getHandleIDs, handleIndices. rewrite Hcs.
  apply map_ext. intros i. unfold getHandleID. now rewrite Hid.
Qed.

Lemma controller_target_known (zone : Zone) (d : DragHandler) (m : MouseMsg)
    (ids : list string) :
  (IsDragging d = true -> In (GetDragHandleID d) ids) ->
  let d' := fst (HandleMouseEvent zone d m ids) in
  IsDragging d' = true -> In (GetDragHandleID d') ids.
Proof.
  intros Hknown. unfold HandleMouseEvent, IsDragging, GetDragHandleID in *.
  destruct (Action m), (state d) eqn:Es, (is_left (Button m));
    try destruct (find _ ids) as [handleID|] eqn:Efind;
    cbn; rewrite ?Es; try discriminate; try exact Hknown;
    intros _; try (now apply Hknown); now apply find_some in Efind.
Qed.

Lemma Update_target_known (zone : Zone) r (msg : Msg) r' sent :
  wf r -> drag_target_known r ->
  Update zone r msg = Some (r', sent) ->
  drag_target_known r'.
Proof.
  intros Hwf Hknown Hup.
  destruct (Update_keeps_shape zone r msg Hwf) as (r1 & sent1 & Hup1 & Hshape).
  rewrite Hup in Hup1. injection Hup1 as <- <-.
  unfold drag_target_known. rewrite (handleIDs_of_shape r r' Hshape).
  pose proof Hwf as [Hlen Hmax]. destruct msg as [w h | m | tag].
  - rewrite (Update_resize zone r w h Hlen) in Hup. injection Hup as <- _.
    exact Hknown.
  - cbn [Update] in Hup.
    pose proof (controller_target_known zone (dragHandler r) m (getHandleIDs r) Hknown)
      as Hstep. cbv zeta in Hstep.
    destruct (HandleMouseEvent zone (dragHandler r) m (getHandleIDs r))
      as [d [[isHandled handleID] deltaX]]. cbn [fst] in Hstep.
    assert (Hwf1 : wf (with_dragHandler r d)) by exact Hwf.
    destruct (isHandled && negb (deltaX =? 0)).
    + destruct (drag_keeps_shape (with_dragHandler r d) handleID deltaX Hwf1)
        as (r1 & Hdrag & Hlen1 & Hsame). rewrite Hdrag in Hup. cbn [bind] in Hup.
      injection Hsame as _ _ _ Hcs Hd. cbn in Hcs, Hd, Hlen1.
      assert (Hlen1' : List.length (children r1) = List.length (proportions r1))
        by (rewrite Hcs, Hlen1; exact Hlen).
      rewrite (resizeChildren_sends r1 Hlen1') in Hup. injection Hup as <- _.
      cbn [dragHandler with_children]. now rewrite Hd.
    + destruct (negb isHandled); injection Hup as <- _; exact Hstep.
  - injection Hup as <- _. exact Hknown.
Qed.

(** X11.  Whatever messages a container has taken since it was built,
    [View] draws at most one handle in the active style: none when no drag
    is in progress, and exactly the handle being dragged otherwise. *)
Theorem one_active_handle_while_dragging
    (prefix : string) cs (ps : list f64) (msgs : list (Zone * Msg)) r0 :
  NewResizableContainer prefix cs ps = Some r0 ->
  len cs <= GoInt.max_int ->
  exists r parts,
    runUpdates r0 msgs = Some r /\
    viewParts r = Some parts /\
    activeHandles parts =
      if IsDragging (dragHandler r) then [GetDragHandleID (dragHandler r)] else [].
Proof.
  intros Hnew Hmax.
  assert (Hstart : wf r0 /\ drag_target_known r0).
  { unfold NewResizableContainer in Hnew.
    destruct (Z.eqb_spec (len cs) (len ps)) as [Hlen|]; [|discriminate].
    injection Hnew as <-. split; [|discriminate].
    unfold wf, len in *. cbn. rewrite length_map. split; [lia | exact Hmax]. }
  clear Hnew. destruct Hstart as [Hwf Hknown].
  revert r0 Hwf Hknown. induction msgs as [|[zone msg] msgs IH]; intros r0 Hwf Hknown.
  - destruct (viewParts_of r0 Hwf) as (parts & Hparts & _ & Hactive & _).
    exists r0, parts. split; [reflexivity|]. split; [exact Hparts|].
    rewrite Hactive. unfold handleActive.
    destruct (IsDragging (dragHandler r0)) eqn:Edrag; cbn [andb].
    + rewrite (filter_eqb_NoDup _ _ (handleIDs_NoDup r0)).
      destruct (in_dec string_dec _ _) as [_|Hout]; [reflexivity|].
      exfalso. apply Hout. now apply Hknown.
    + clear. induction (getHandleIDs r0); [reflexivity | assumption].
  - destruct (Update_keeps_shape zone r0 msg Hwf) as (r1 & sent & Hup & Hwf1 & _).
    pose proof (Update_target_known zone r0 msg r1 sent Hwf Hknown Hup) as Hknown1.
    destruct (IH r1 Hwf1 Hknown1) as (r & parts & Hrun & Hrest).
    exists r, parts. split; [|exact Hrest].
    cbn [runUpdates]. rewrite Hup. exact Hrun.
Qed.

End ViewFacts.

(* ===================================================================== *)
(** * Properties of the handle's content and of the list pane *)

Lemma string_app_assoc (a b c : string) : ((a ++ b) ++ c = a ++ b ++ c)%string.
Proof.
  induction a as [|x a IH]; [reflexivity|]. cbn. now rewrite IH.
Qed.

Lemma handle_lines_from (n : nat) :
  forall (k : nat) (acc : string),
    (0 < k)%nat ->
    fold_left (fun acc i =>
                 let sep := if 0 <? Z.of_nat i then newline else EmptyString in
                 (acc ++ sep ++ bar)%string)
              (seq k n) acc =
    match n with
    | O => acc
    | S _ => (acc ++ newline ++ String.concat newline (repeat bar n))%string
    end.
Proof.
  induction n as [|n IH]; intros k acc Hk; [reflexivity|].
  cbn [seq fold_left]. rewrite IH by lia.
  destruct (Z.ltb_spec 0 (Z.of_nat k)) as [_|Hle]; [|lia].
  destruct n as [|n]; [reflexivity|].
  cbn [repeat String.concat]. now rewrite !string_app_assoc.
Qed.

(** X14.  The content of a handle is one bar per line of the container's
    height, the bars separated by newlines with none at the end; it is
    empty when the height is zero or negative. *)
Theorem handle_is_one_bar_per_line (h : Z) :
  handleContent h = String.concat newline (repeat bar (Z.to_nat h)) /\
  (h <= 0 -> handleContent h = EmptyString).
Proof.
  assert (Hform : handleContent h = String.concat newline (repeat bar (Z.to_nat h))).
  { unfold handleContent. destruct (Z.to_nat h) as [|n]; [reflexivity|].
    cbn [seq fold_left]. rewrite handle_lines_from by lia.
    now destruct n. }
  split; [exact Hform|]. intros Hle. rewrite Hform.
  now replace (Z.to_nat h) with O by lia.
Qed.






(* ===================================================================== *)
(** * Properties of the program's model *)

Section ProgramFacts.

Context {F : Float64} {Header Footer Pane : Type}
        {HeaderModel : Model Header} {HeaderView : Viewable Header}
        {FooterModel : Model Footer} {FooterView : Viewable Footer}
        {PaneModel : Model Pane}.

Variable Height : string -> Z.
Variable keyString : string -> option string.

Implicit Types (m : Main.model (Header := Header) (Footer := Footer) (Pane := Pane)).

(** A size message reaches the container with the width given and a
    height of at least 1, and is never a panic on a well-formed container. *)
Lemma propagate_size (zone : Zone) m (w h : Z) :
  wf (Main.resizableContainer m) ->
  exists m',
    Main.propagate Height zone m (WindowSizeMsg w h) = Some m' /\
    Main.height m' = Main.height m /\ Main.width m' = Main.width m /\
    Main.header m' = update (WindowSizeMsg w h) (Main.header m) /\
    Main.footer m' = update (WindowSizeMsg w h) (Main.footer m) /\
    same_shape (Main.resizableContainer m) (Main.resizableContainer m') /\
    proportions (Main.resizableContainer m') = proportions (Main.resizableContainer m) /\
    width (Main.resizableContainer m') = w /\
    1 <= height (Main.resizableContainer m').
Proof.
  intros Hwf. pose proof Hwf as [Hlen Hmax]. unfold Main.propagate.
  set (middleH := GoInt.sub _ _).
  rewrite (Update_resize zone _ w (if middleH <? 1 then 1 else middleH) Hlen).
  cbv zeta. cbn [bind fst]. eexists. split; [reflexivity|].
  cbn [Main.height Main.width Main.header Main.footer Main.resizableContainer
       width height proportions with_children with_size].
  repeat split; try reflexivity.
  - unfold len in *. cbn [children with_children with_size proportions].
    now rewrite resized_length.
  - unfold len in *. cbn [children with_children with_size].
    now rewrite resized_length.
  - cbn [children with_children with_size]. now rewrite resized_length.
  - destruct (Z.ltb_spec middleH 1); lia.
Qed.



(** The model after a size message. *)
Lemma Update_size (zone : Zone) (enabled : bool) m (w h : Z) :
  wf (Main.resizableContainer m) ->
  exists m',
    Main.Update Height keyString zone enabled m (WindowSizeMsg w h) =
      Some (m', enabled, CmdNil) /\
    Main.height m' = h /\ Main.width m' = w /\
    Main.header m' =
      update (WindowSizeMsg (GoInt.sub w 2) (GoInt.sub h 2)) (Main.header m) /\
    Main.footer m' =
      update (WindowSizeMsg (GoInt.sub w 2) (GoInt.sub h 2)) (Main.footer m) /\
    same_shape (Main.resizableContainer m) (Main.resizableContainer m') /\
    proportions (Main.resizableContainer m') = proportions (Main.resizableContainer m) /\
    width (Main.resizableContainer m') = GoInt.sub w 2 /\
    1 <= height (Main.resizableContainer m').
Proof.
  intros Hwf. unfold Main.Update. cbn [is_size negb]. rewrite Bool.andb_false_r.
  set (m1 := Main.Build_model _ _ _ _ _).
  destruct (propagate_size zone m1 (GoInt.sub w 2) (GoInt.sub h 2) Hwf)
    as (m' & -> & Hh & Hw & Hrest).
  cbn [bind]. exists m'. split; [reflexivity|]. now repeat split; try apply Hrest.
Qed.


(** X16.  A window size message is never dropped and never a panic: the
    model records the size of the terminal, the header and the footer are
    sent that size less 2 in each direction, and the container is given the
    width less 2 and a height of at least 1, whatever the header and the
    footer measure.  The model is initialised afterwards exactly when
    neither dimension is 0. *)
Theorem size_reaches_every_component (zone : Zone) (enabled : bool) m (w h : Z) :
  wf (Main.resizableContainer m) ->
  exists m',
    Main.Update Height keyString zone enabled m (WindowSizeMsg w h) =
      Some (m', enabled, CmdNil) /\
    (Main.height m', Main.width m') = (h, w) /\
    Main.header m' =
      update (WindowSizeMsg (GoInt.sub w 2) (GoInt.sub h 2)) (Main.header m) /\
    Main.footer m' =
      update (WindowSizeMsg (GoInt.sub w 2) (GoInt.sub h 2)) (Main.footer m) /\
    same_shape (Main.resizableContainer m) (Main.resizableContainer m') /\
    width (Main.resizableContainer m') = GoInt.sub w 2 /\
    1 <= height (Main.resizableContainer m') /\
    (Main.isInitialized m' = true <-> w <> 0 /\ h <> 0).
Proof.
  intros Hwf.
  destruct (Update_size zone enabled m w h Hwf)
    as (m' & Hup & Hh & Hw & Hhead & Hfoot & Hshape & _ & Hcw & Hch).
  exists m'. split; [exact Hup|]. split; [now rewrite Hh, Hw|].
  repeat (split; [assumption|]).
  unfold Main.isInitialized. rewrite Hh, Hw.
  destruct (Z.eqb_spec h 0), (Z.eqb_spec w 0); cbn; split; intros H;
    try discriminate; try reflexivity; try (now split); now destruct H.
Qed.

(** X17.  A size message with a dimension of 0 leaves the program deaf:
    until the next size message every message is dropped, ctrl+c and ctrl+e
    among them; nothing changes and no command is returned. *)
Theorem zero_size_makes_the_program_deaf
    (zone : Zone) (enabled : bool) m (w h : Z) (msgs : list (Zone * Msg)) :
  wf (Main.resizableContainer m) ->
  w = 0 \/ h = 0 ->
  Forall (fun zm => is_size (snd zm) = false) msgs ->
  exists m',
    Main.Update Height keyString zone enabled m (WindowSizeMsg w h) =
      Some (m', enabled, CmdNil) /\
    Main.runProgram Height keyString enabled m' msgs =
      Some (m', enabled, repeat CmdNil (List.length msgs)).
Proof.
  intros Hwf Hzero Hall.
  destruct (Update_size zone enabled m w h Hwf) as (m' & Hup & Hh & Hw & _).
  exists m'. split; [exact Hup|].
  assert (Hinit : Main.isInitialized m' = false).
  { unfold Main.isInitialized. rewrite Hh, Hw.
    destruct Hzero as [-> | ->]; cbn; [apply Bool.andb_false_r | reflexivity]. }
  clear Hup. induction Hall as [|[z msg] msgs Hmsg _ IH]; [reflexivity|].
  cbn [snd] in Hmsg. cbn [Main.runProgram List.length repeat].
  unfold Main.Update. rewrite Hinit, Hmsg. cbn [negb andb bind fst snd].
  now rewrite IH.
Qed.


End ProgramFacts.

(* ===================================================================== *)
(** * Properties of the header *)






Lemma String_injective (a b : ascii) (s t : string) :
  String a s = String b t -> a = b /\ s = t.
Proof. intros Heq. now injection Heq. Qed.

Lemma byte_injective (a b : Z) :
  0 <= a < 256 -> 0 <= b < 256 ->
  ascii_of_nat (Z.to_nat a) = ascii_of_nat (Z.to_nat b) -> a = b.
Proof.
  intros Ha Hb Heq. apply (f_equal nat_of_ascii) in Heq.
  rewrite !nat_ascii_embedding in Heq by lia. lia.
Qed.

Lemma lor_disjoint (hi x : Z) : Z.land hi x = 0 -> Z.lor hi x = hi + x.
Proof.
  intros Hland. now rewrite <- Z.lxor_lor, <- Z.add_nocarry_lxor.
Qed.

Lemma below_cases (n : nat) (x : Z) :
  0 <= x < Z.of_nat n -> In x (map Z.of_nat (seq 0 n)).
Proof.
  intros Hx. apply in_map_iff. exists (Z.to_nat x). split; [lia|].
  apply in_seq. lia.
Qed.

Lemma lor_tag (hi : Z) (n : nat) (x : Z) :
  forallb (fun y => Z.land hi y =? 0) (map Z.of_nat (seq 0 n)) = true ->
  0 <= x < Z.of_nat n -> Z.lor hi x = hi + x.
Proof.
  intros Hall Hx. apply lor_disjoint. apply Z.eqb_eq.
  apply (proj1 (forallb_forall _ _) Hall). now apply below_cases.
Qed.

(** The encoding of a code point below the surrogates. *)
Lemma string_of_rune_low (c : Z) :
  0 <= c < 0xD800 ->
  string_of_rune c =
    if c <=? 0x7F then bytes [c]
    else if c <=? 0x7FF then bytes [192 + c / 64; 128 + c mod 64]
    else bytes [224 + c / 4096; 128 + (c / 64) mod 64; 128 + c mod 64].
Proof.
  intros Hc. unfold string_of_rune.
  rewrite (Z.mod_small c (2 ^ 32)) by lia. cbv zeta.
  destruct (Z.leb_spec c 0x7F); [reflexivity|].
  change 0x3F with (Z.ones 6). rewrite !Z.land_ones, !Z.shiftr_div_pow2 by lia.
  change (2 ^ 6) with 64. change (2 ^ 12) with 4096.
  assert (Hcont : forall x, 0 <= x -> Z.lor 0x80 (x mod 64) = 128 + x mod 64).
  { intros x Hx. apply (lor_tag 0x80 64); [now vm_compute|].
    change (Z.of_nat 64) with 64. apply Z.mod_pos_bound. lia. }
  rewrite !Hcont by (try apply Z.div_pos; lia).
  destruct (Z.leb_spec c 0x7FF).
  - rewrite (lor_tag 0xC0 32); [reflexivity | now vm_compute|].
    change (Z.of_nat 32) with 32.
    split; [apply Z.div_pos; lia | apply Z.div_lt_upper_bound; lia].
  - destruct (Z.ltb_spec 0x10FFFF c); [lia|].
    destruct (Z.leb_spec 0xD800 c); [lia|]. cbn [orb andb].
    destruct (Z.leb_spec c 0xFFFF); [|lia].
    rewrite ?Hcont by (try apply Z.div_pos; lia).
    rewrite (lor_tag 0xE0 16); [reflexivity | now vm_compute|].
    change (Z.of_nat 16) with 16.
    split; [apply Z.div_pos; lia | apply Z.div_lt_upper_bound; lia].
Qed.

Lemma string_of_rune_injective (c d : Z) :
  0 <= c < 0xD800 -> 0 <= d < 0xD800 ->
  string_of_rune c = string_of_rune d -> c = d.
Proof.
  intros Hc Hd. rewrite (string_of_rune_low c Hc), (string_of_rune_low d Hd).
  unfold bytes.
  assert (Hdiv : forall x, 0 <= x < 0xD800 ->
            0 <= x / 64 /\ 0 <= x mod 64 < 64 /\ 0 <= (x / 64) mod 64 < 64 /\
            0 <= x / 4096 < 16 /\ (x <= 0x7FF -> x / 64 < 32)).
  { intros x Hx. repeat split; try (apply Z.div_pos; lia);
      try (apply Z.mod_pos_bound; lia); try (apply Z.div_lt_upper_bound; lia).
    intros Hle. apply Z.div_lt_upper_bound; lia. }
  pose proof (Hdiv c Hc) as (Hc1 & Hc2 & Hc3 & Hc4 & Hc5).
  pose proof (Hdiv d Hd) as (Hd1 & Hd2 & Hd3 & Hd4 & Hd5).
  destruct (Z.leb_spec c 0x7F), (Z.leb_spec d 0x7F),
           (Z.leb_spec c 0x7FF), (Z.leb_spec d 0x7FF);
    cbn [map string_of_list_ascii]; intros Heq; try discriminate; try lia;
    repeat match goal with
           | H : String _ _ = String _ _ |- _ =>
               apply String_injective in H; destruct H as [? ?]
           | H : ascii_of_nat (Z.to_nat ?a) = ascii_of_nat (Z.to_nat ?b) |- _ =>
               apply (byte_injective a b) in H; [|lia|lia]
           end;
    try lia; clear Hdiv; Z.div_mod_to_equations; lia.
Qed.

Lemma button_rune (i : Z) :
  0 <= i < 0xD800 - 48 -> rune (GoInt.add 48 i) = 48 + i.
Proof.
  intros Hi. unfold GoInt.add, rune.
  rewrite wrap_in_range by (unfold GoInt.min_int, GoInt.max_int; lia).
  rewrite Z.mod_small by lia. lia.
Qed.

(** X21.  The identifiers of the header's buttons are pairwise distinct up
    to button 55247, and end in the decimal digit of the index for the
    first ten.  From button 55248 on the rune in the identifier is a
    surrogate half, which [string] turns into U+FFFD: buttons 55248 and
    55249 have the same identifier. *)
Theorem button_ids_distinct_below_surrogates (h : header_) :
  (forall i j : Z, 0 <= i < 55248 -> 0 <= j < 55248 ->
     getButtonID h i = getButtonID h j -> i = j) /\
  (forall i : nat, (i < 10)%nat ->
     getButtonID h (Z.of_nat i) = (header_id h ++ "button_" ++ GoInt.Itoa i)%string) /\
  getButtonID h 55248 = getButtonID h 55249.
Proof.
  split; [|split].
  - intros i j Hi Hj Heq. unfold getButtonID in Heq.
    apply append_cancel in Heq. apply (append_cancel "button_") in Heq.
    rewrite !button_rune in Heq by lia.
    apply string_of_rune_injective in Heq; lia.
  - intros i Hi. unfold getButtonID. do 2 f_equal.
    do 10 (destruct i as [|i]; [now vm_compute|]). lia.
  - unfold getButtonID. f_equal; now vm_compute.
Qed.

(* ===================================================================== *)
(** * The further properties at concrete inputs *)

Lemma drag_deltas_add_up_witness :
  let d := startDrag "zhandle_0" 10 in
  let evs : list Event :=
    [(fun _ _ => false, ["zhandle_0"%string], motion 13);
     (fun _ _ => false, ["zhandle_0"%string], motion 8)] in
  let outs := runEvents d evs in
  let d' := lastHandler d outs in
  Forall (fun out => fst (snd out) = (true, dragHandleID d)) outs /\
  lastX d' = last (map (fun ev : Event => X (snd ev)) evs) (lastX d) /\
  GoInt.wrap (sumZ (deltas outs)) = GoInt.wrap (lastX d' - lastX d) /\
  (on_screen (lastX d) ->
   Forall (fun ev : Event => on_screen (X (snd ev))) evs ->
   sumZ (deltas outs) = lastX d' - lastX d).
Proof.
  intros d evs.
  apply (drag_deltas_add_up d evs); [reflexivity|].
  repeat (constructor; try reflexivity).
Defined.

Lemma drag_session_lifecycle_witness :
  let zone := handleAt "zhandle_0" 50 in
  let ids := ["zhandle_0"%string] in
  let outs := runEvents NewDragHandler
                [(zone, ids, press 50); (zone, ids, motion 55); (zone, ids, release 55)] in
  Forall (fun out => fst (snd out) = (true, "zhandle_0"%string)) outs /\
  Forall (fun out => IsDragging (fst out) = true) (removelast outs) /\
  lastHandler NewDragHandler outs = NewDragHandler.
Proof.
  intros zone ids.
  apply (drag_session_lifecycle NewDragHandler zone ids (press 50)
           [(zone, ids, motion 55)] zone ids (release 55) "zhandle_0");
    try reflexivity.
  repeat (constructor; try reflexivity).
Defined.

Lemma only_left_release_ends_drag_witness :
  let d := startDrag "zhandle_0" 10 in
  let evs : list Event :=
    [(fun _ _ => false, ["zhandle_0"%string], motion 12);
     (fun _ _ => false, ["zhandle_0"%string], press 12)] in
  Forall (fun out => IsDragging (fst out) = true) (runEvents d evs).
Proof.
  intros d evs.
  apply (only_left_release_ends_drag d evs); [reflexivity|].
  repeat (constructor; try reflexivity).
Defined.

Lemma updates_never_panic_witness :
  let r := twoPanes (F := Binary64.ops) Lit.f0_5 in
  let zone := handleAt "zhandle_0" 39 in
  exists r',
    runUpdates r [(zone, WindowSizeMsg 80 24); (zone, Mouse (press 39));
                  (zone, Mouse (motion 45)); (zone, Mouse (release 45))] = Some r' /\
    same_shape r r'.
Proof.
  intros r zone.
  apply (updates_never_panic r).
  split; [reflexivity | vm_compute; discriminate].
Defined.

Lemma mouse_is_consumed_or_forwarded_witness :
  let r := twoPanes (F := Binary64.ops) Lit.f0_5 in
  let zone := handleAt "zhandle_0" 49 in
  let m := press 49 in
  let out := HandleMouseEvent zone (dragHandler r) m (getHandleIDs r) in
  exists r' sent,
    Update zone r (Mouse m) = Some (r', sent) /\
    dragHandler r' = fst out /\
    (handled (snd out) = true ->
       Forall (fun msg => is_size msg = true) sent /\
       (snd (snd out) = 0 ->
          sent = [] /\ proportions r' = proportions r /\ children r' = children r)) /\
    (handled (snd out) = false ->
       sent = map (fun _ => Mouse m) (children r) /\
       children r' = map (update (Mouse m)) (children r) /\
       proportions r' = proportions r /\
       dragHandler r' = dragHandler r).
Proof.
  intros r zone m.
  apply (mouse_is_consumed_or_forwarded zone r m).
  split; [reflexivity | vm_compute; discriminate].
Defined.

Lemma view_interleaves_children_and_handles_witness :
  let r := threePanes (F := Binary64.ops) Lit.f0_5 Lit.f0_25 Lit.f0_25 in
  exists parts,
    viewParts r = Some parts /\
    View (R := plainRenderer) r =
      Some (if len (children r) =? 0 then EmptyString
            else JoinHorizontal (map renderPart parts)) /\
    marked parts = getHandleIDs r /\
    paneViews parts = map view (children r) /\
    paneSizes parts = sizes (availableWidth r) (height r) (proportions r) /\
    List.length parts = (2 * List.length (children r) - 1)%nat /\
    (forall (k : nat) (child : ListPane),
       nth_error (children r) k = Some child ->
       exists p : float,
         nth_error (proportions r) k = Some p /\
         nth_error parts (2 * k) =
           Some (PanePart (childWidth (F := Binary64.ops) (availableWidth r) p)
                          (height r) (view child))) /\
    (forall k : nat,
       (k < List.length (children r) - 1)%nat ->
       nth_error (getHandleIDs r) k = Some (getHandleID r k) /\
       nth_error parts (2 * k + 1) =
         Some (HandlePart (getHandleID r k) (handleActive r (getHandleID r k))
                          (handleContent (height r)))).
Proof.
  intros r.
  apply (view_interleaves_children_and_handles (R := plainRenderer) r).
  split; [reflexivity | vm_compute; discriminate].
Defined.

Lemma view_draws_at_the_sizes_sent_witness :
  let r := twoPanes (F := Binary64.ops) Lit.f0_5 in
  exists r' sent parts,
    Update (fun _ _ => false) r (WindowSizeMsg 80 24) = Some (r', sent) /\
    viewParts r' = Some parts /\
    (Forall (fun m => is_size m = true) sent -> sent <> [] -> paneSizes parts = sent).
Proof.
  intros r.
  apply (view_draws_at_the_sizes_sent (fun _ _ => false) r (WindowSizeMsg 80 24)).
  split; [reflexivity | vm_compute; discriminate].
Defined.

Lemma one_active_handle_while_dragging_witness :
  let zone := handleAt "zhandle_0" 39 in
  let r0 := twoPanes (F := Binary64.ops) Lit.f0_5 in
  exists r parts,
    runUpdates (with_size r0 0 0)
      [(zone, WindowSizeMsg 80 24); (zone, Mouse (press 39)); (zone, Mouse (motion 45))]
      = Some r /\
    viewParts r = Some parts /\
    activeHandles parts =
      if IsDragging (dragHandler r) then [GetDragHandleID (dragHandler r)] else [].
Proof.
  intros zone r0.
  apply (one_active_handle_while_dragging (F := Binary64.ops) "z"
           [emptyPane; emptyPane] [Lit.f0_5; Lit.f0_5]).
  - reflexivity.
  - vm_compute. discriminate.
Defined.

(** The program of the demo before its first size message, with plain
    panes for the header and the footer, each one line high. *)
Lemma size_reaches_every_component_witness :
  let m := {| Main.height := 0; Main.width := 0; Main.header := emptyPane;
              Main.footer := emptyPane;
              Main.resizableContainer := twoPanes (F := Binary64.ops) Lit.f0_5 |} in
  exists m',
    Main.Update (fun _ => 1) (fun tag => Some tag) (fun _ _ => false) true m
      (WindowSizeMsg 80 24) = Some (m', true, CmdNil) /\
    (Main.height m', Main.width m') = (24, 80) /\
    Main.header m' =
      update (WindowSizeMsg (GoInt.sub 80 2) (GoInt.sub 24 2)) (Main.header m) /\
    Main.footer m' =
      update (WindowSizeMsg (GoInt.sub 80 2) (GoInt.sub 24 2)) (Main.footer m) /\
    same_shape (Main.resizableContainer m) (Main.resizableContainer m') /\
    width (Main.resizableContainer m') = GoInt.sub 80 2 /\
    1 <= height (Main.resizableContainer m') /\
    (Main.isInitialized m' = true <-> 80 <> 0 /\ 24 <> 0).
Proof.
  intros m.
  apply (size_reaches_every_component (fun _ => 1) (fun tag => Some tag)
           (fun _ _ => false) true m 80 24).
  split; [reflexivity | vm_compute; discriminate].
Defined.

Lemma zero_size_makes_the_program_deaf_witness :
  let m := {| Main.height := 24; Main.width := 80; Main.header := emptyPane;
              Main.footer := emptyPane;
              Main.resizableContainer := twoPanes (F := Binary64.ops) Lit.f0_5 |} in
  let zone : Zone := fun _ _ => false in
  let msgs := [(zone, OtherMsg "ctrl+c"); (zone, Mouse (press 3)); (zone, OtherMsg "ctrl+e")] in
  exists m',
    Main.Update (fun _ => 1) (fun tag => Some tag) zone true m (WindowSizeMsg 0 24) =
      Some (m', true, CmdNil) /\
    Main.runProgram (fun _ => 1) (fun tag => Some tag) true m' msgs =
      Some (m', true, repeat CmdNil (List.length msgs)).
Proof.
  intros m zone msgs.
  apply (zero_size_makes_the_program_deaf (fun _ => 1) (fun tag => Some tag)
           zone true m 0 24 msgs).
  - split; [reflexivity | vm_compute; discriminate].
  - now left.
  - repeat (constructor; try reflexivity).
Defined.


